(** * Intercom card (frontend/www/intercom-card.js): model and properties

    The card is a browser custom element.  Its methods are embedded as
    functions over an explicit record of the instance fields; what a method
    does to the outside world (messages to the hub, scheduled audio, DOM
    updates, released resources) is returned as a list of effects.

    Conventions of the embedding:
    - JavaScript numbers that hold times are exact rationals ([Q]); rounding
      of doubles is not modelled.
    - JavaScript strings are [string]s of 8-bit characters; the "binary
      string" handed to [btoa] only holds char codes below 256, so it is
      represented without loss.
    - [async] methods are resumable tasks: the code between two [await]s on
      the platform is one atomic step, and the continuation after an [await]
      reads the instance fields as they are when the promise settles.
    - values read from the platform in the middle of a method (the audio
      clock, the state of a fresh [AudioContext]) are arguments. *)

From Stdlib Require Import ZArith NArith QArith Qminmax List String Ascii Bool.
From Stdlib Require Import Lia Lqa.
Import ListNotations.

Local Open Scope Z_scope.

(* ===================================================================== *)
(** * Platform: [btoa] and [atob] *)
(* ===================================================================== *)

(** The base64 alphabet of RFC 4648, as [btoa] uses it. *)
Definition b64_alphabet : string :=
  "ABCDEFGHIJKLMNOPQRSTUVWXYZabcdefghijklmnopqrstuvwxyz0123456789+/".

Definition pad_char : ascii := "="%char.

Definition b64_char (n : N) : ascii :=
  match String.get (N.to_nat n) b64_alphabet with
  | Some c => c
  | None => pad_char
  end.

Definition b64_index (c : ascii) : option N :=
  let n := N_of_ascii c in
  if ((65 <=? n) && (n <=? 90))%N then Some (n - 65)%N
  else if ((97 <=? n) && (n <=? 122))%N then Some (n - 71)%N
  else if ((48 <=? n) && (n <=? 57))%N then Some (n + 4)%N
  else if (n =? 43)%N then Some 62%N
  else if (n =? 47)%N then Some 63%N
  else None.

(** [btoa]: three bytes become four characters; one or two trailing bytes
    are padded with [=]. *)
Fixpoint btoa_chars (s : list ascii) : list ascii :=
  match s with
  | [] => []
  | [a] =>
      let x := N_of_ascii a in
      [b64_char (x / 4); b64_char ((x mod 4) * 16); pad_char; pad_char]%N
  | [a; b] =>
      let x := N_of_ascii a in
      let y := N_of_ascii b in
      [b64_char (x / 4); b64_char ((x mod 4) * 16 + y / 16);
       b64_char ((y mod 16) * 4); pad_char]%N
  | a :: b :: c :: rest =>
      let x := N_of_ascii a in
      let y := N_of_ascii b in
      let z := N_of_ascii c in
      (b64_char (x / 4) :: b64_char ((x mod 4) * 16 + y / 16)
        :: b64_char ((y mod 16) * 4 + z / 64) :: b64_char (z mod 64)
        :: btoa_chars rest)%N
  end.

Definition btoa (binary : string) : string :=
  string_of_list_ascii (btoa_chars (list_ascii_of_string binary)).

(** [atob] is the forgiving-base64 decoder: ASCII whitespace is removed, one
    or two trailing [=] are removed when the length is a multiple of four, a
    length of 1 modulo 4 or a character outside the alphabet is an
    [InvalidCharacterError] ([None]). *)
Definition is_ascii_whitespace (c : ascii) : bool :=
  let n := N_of_ascii c in
  ((n =? 9) || (n =? 10) || (n =? 12) || (n =? 13) || (n =? 32))%N.

Definition strip_padding (l : list ascii) : list ascii :=
  if (Nat.modulo (List.length l) 4 =? 0)%nat then
    match rev l with
    | p :: q :: r =>
        if Ascii.eqb p pad_char then
          if Ascii.eqb q pad_char then rev r else rev (q :: r)
        else l
    | [p] => if Ascii.eqb p pad_char then [] else l
    | [] => l
    end
  else l.

Fixpoint sextets (l : list ascii) : option (list N) :=
  match l with
  | [] => Some []
  | c :: rest =>
      match b64_index c, sextets rest with
      | Some n, Some ns => Some (n :: ns)
      | _, _ => None
      end
  end.

Fixpoint decode_sextets (l : list N) : list ascii :=
  match l with
  | a :: b :: c :: d :: rest =>
      (ascii_of_N (a * 4 + b / 16) :: ascii_of_N ((b mod 16) * 16 + c / 4)
        :: ascii_of_N ((c mod 4) * 64 + d) :: decode_sextets rest)%N
  | [a; b; c] =>
      [ascii_of_N (a * 4 + b / 16); ascii_of_N ((b mod 16) * 16 + c / 4)]%N
  | [a; b] => [ascii_of_N (a * 4 + b / 16)]%N
  | _ => []
  end.

Definition atob_chars (l : list ascii) : option (list ascii) :=
  let data := strip_padding (filter (fun c => negb (is_ascii_whitespace c)) l) in
  if (Nat.modulo (List.length data) 4 =? 1)%nat then None
  else option_map decode_sextets (sextets data).

Definition atob (text : string) : option string :=
  option_map string_of_list_ascii (atob_chars (list_ascii_of_string text)).

(* ===================================================================== *)
(** * Typed arrays over one buffer *)
(* ===================================================================== *)

(** An [Int16Array] element is an integer of [-32768, 32767]; its two bytes
    in the buffer are the two's complement value, low byte first. *)
Definition int16_range (s : Z) : Prop := -32768 <= s <= 32767.

(** A [Uint8Array] element. *)
Definition byte_range (b : Z) : Prop := 0 <= b < 256.

Definition to_uint16 (s : Z) : Z := s mod 65536.

Definition to_int16 (u : Z) : Z := if u <? 32768 then u else u - 65536.

Definition int16_bytes (s : Z) : list Z :=
  [to_uint16 s mod 256; to_uint16 s / 256].

(** [new Uint8Array(int16Array.buffer)] *)
Definition Uint8Array_of_Int16Array (samples : list Z) : list Z :=
  flat_map int16_bytes samples.

(** [new Int16Array(bytes.buffer)]: a [RangeError] ([None]) when the byte
    length is odd. *)
Fixpoint Int16Array_of_Uint8Array (bytes : list Z) : option (list Z) :=
  match bytes with
  | [] => Some []
  | [_] => None
  | lo :: hi :: rest =>
      option_map (cons (to_int16 (lo + 256 * hi)))
                 (Int16Array_of_Uint8Array rest)
  end.

(** [String.fromCharCode.apply(null, bytes)] *)
Definition fromCharCode (bytes : list Z) : list ascii :=
  map (fun b => ascii_of_N (Z.to_N b)) bytes.

(** [bytes.subarray(a, b)] for [a <= b <= bytes.length] *)
Definition subarray (bytes : list Z) (a b : nat) : list Z :=
  firstn (b - a) (skipn a bytes).

Definition chunk_size : nat := N.to_nat 32768.

(** The loop of [_sendAudio] that builds the binary string 0x8000 bytes at a
    time; [fuel] bounds the number of iterations. *)
Fixpoint binary_loop (fuel i : nat) (bytes : list Z) (binary : list ascii)
  : list ascii :=
  match fuel with
  | O => binary
  | S fuel' =>
      if (i <? List.length bytes)%nat then
        binary_loop fuel' (i + chunk_size) bytes
          (binary ++ fromCharCode
             (subarray bytes i (Nat.min (i + chunk_size) (List.length bytes))))
      else binary
  end.

Definition binary_string (bytes : list Z) : string :=
  string_of_list_ascii (binary_loop (List.length bytes) 0 bytes []).

(** The [audio] field that [_sendAudio] puts in the message. *)
Definition encode_audio (samples : list Z) : string :=
  btoa (binary_string (Uint8Array_of_Int16Array samples)).

(** [binary.charCodeAt(i)] for every [i], stored in a [Uint8Array]. *)
Definition charCodes (binary : string) : list Z :=
  map (fun c => Z.of_N (N_of_ascii c)) (list_ascii_of_string binary).

(** The samples [_handleAudioEvent] obtains from the [audio] field; [None]
    when [atob] or the [Int16Array] constructor throws. *)
Definition decode_audio (audio : string) : option (list Z) :=
  match atob audio with
  | None => None
  | Some binary => Int16Array_of_Uint8Array (charCodes binary)
  end.

(* ===================================================================== *)
(** * JavaScript values held by the card *)
(* ===================================================================== *)

Local Open Scope string_scope.
Local Open Scope list_scope.

(** A field that is a string when present. *)
Inductive jsval :=
| Undefined
| Null
| Str (s : string).

(** Truthiness: [undefined], [null] and the empty string are falsy. *)
Definition truthy (v : jsval) : bool :=
  match v with
  | Str s => negb (s =? "")
  | _ => false
  end.

(** [a || b] *)
Definition js_or (a b : jsval) : jsval := if truthy a then a else b.

(** [a === b] *)
Definition strict_eq (a b : jsval) : bool :=
  match a, b with
  | Undefined, Undefined => true
  | Null, Null => true
  | Str s, Str t => s =? t
  | _, _ => false
  end.

(** An entry of the device-listing service. *)
Record device := {
  device_id : string;
  name : jsval;
  host : jsval;
  esphome_id : jsval
}.

(** The Lovelace configuration of the card. *)
Record card_config := {
  cfg_entity_id : jsval;
  cfg_device_id : jsval;
  cfg_name : jsval;
  cfg_mode : jsval
}.

(** A platform object whose content the card never inspects. *)
Inductive obj := Obj.

(** Truthiness of a field that is [null] or an object. *)
Definition is_object {A} (v : option A) : bool :=
  match v with
  | Some _ => true
  | None => false
  end.

(** [name.toLowerCase().replace(/\s+/g, '-')] on ASCII text. *)
Definition to_lower (c : ascii) : ascii :=
  let n := N_of_ascii c in
  if ((65 <=? n) && (n <=? 90))%N then ascii_of_N (n + 32) else c.

Definition is_space (c : ascii) : bool :=
  let n := N_of_ascii c in
  ((n =? 32) || ((9 <=? n) && (n <=? 13)))%N.

Fixpoint dash_spaces (in_run : bool) (s : string) : string :=
  match s with
  | EmptyString => EmptyString
  | String c rest =>
      if is_space c then
        if in_run then dash_spaces true rest
        else String "-"%char (dash_spaces true rest)
      else String c (dash_spaces false rest)
  end.

Fixpoint lower_string (s : string) : string :=
  match s with
  | EmptyString => EmptyString
  | String c rest => String (to_lower c) (lower_string rest)
  end.

(** [d.name?.toLowerCase().replace(/\s+/g, '-')] *)
Definition slug (v : jsval) : jsval :=
  match v with
  | Str s => Str (dash_spaces false (lower_string s))
  | _ => Undefined
  end.

(** ** Events delivered by the hub *)

Record audio_data := { audio_device_id : string; audio : string }.
Record state_data := { state_device_id : string; state : string }.
Record bridge_data := {
  source_device_id : string;
  dest_device_id : string;
  bridge_state : string
}.

(** An event object; [data] may be missing. *)
Definition event (D : Type) := option D.

(** ** The instance fields *)

Record card := {
  config : option card_config;
  _hass : bool;
  _active : bool;
  _ringing : bool;
  _stopping : bool;
  _starting : bool;
  _audioContext : option obj;
  _mediaStream : option obj;
  _workletNode : option obj;
  _source : option obj;
  _playbackContext : option obj;
  _gainNode : option obj;
  _nextPlayTime : Q;
  _chunksDropped : nat;
  _unsubscribeAudio : option nat;
  _unsubscribeState : option nat;
  _chunksSent : nat;
  _chunksReceived : nat;
  _activeDeviceInfo : option device;
  _availableDevices : list device;
  _selectedDestination : jsval
}.

Definition set_config (v : option card_config) (c : card) : card :=
  let '(Build_card x0 x1 x2 x3 x4 x5 x6 x7 x8 x9 x10 x11 x12 x13 x14 x15 x16 x17 x18 x19 x20) := c in
  Build_card v x1 x2 x3 x4 x5 x6 x7 x8 x9 x10 x11 x12 x13 x14 x15 x16 x17 x18 x19 x20.

Definition set_hass (v : bool) (c : card) : card :=
  let '(Build_card x0 x1 x2 x3 x4 x5 x6 x7 x8 x9 x10 x11 x12 x13 x14 x15 x16 x17 x18 x19 x20) := c in
  Build_card x0 v x2 x3 x4 x5 x6 x7 x8 x9 x10 x11 x12 x13 x14 x15 x16 x17 x18 x19 x20.

Definition set_active (v : bool) (c : card) : card :=
  let '(Build_card x0 x1 x2 x3 x4 x5 x6 x7 x8 x9 x10 x11 x12 x13 x14 x15 x16 x17 x18 x19 x20) := c in
  Build_card x0 x1 v x3 x4 x5 x6 x7 x8 x9 x10 x11 x12 x13 x14 x15 x16 x17 x18 x19 x20.

Definition set_ringing (v : bool) (c : card) : card :=
  let '(Build_card x0 x1 x2 x3 x4 x5 x6 x7 x8 x9 x10 x11 x12 x13 x14 x15 x16 x17 x18 x19 x20) := c in
  Build_card x0 x1 x2 v x4 x5 x6 x7 x8 x9 x10 x11 x12 x13 x14 x15 x16 x17 x18 x19 x20.

Definition set_stopping (v : bool) (c : card) : card :=
  let '(Build_card x0 x1 x2 x3 x4 x5 x6 x7 x8 x9 x10 x11 x12 x13 x14 x15 x16 x17 x18 x19 x20) := c in
  Build_card x0 x1 x2 x3 v x5 x6 x7 x8 x9 x10 x11 x12 x13 x14 x15 x16 x17 x18 x19 x20.

Definition set_starting (v : bool) (c : card) : card :=
  let '(Build_card x0 x1 x2 x3 x4 x5 x6 x7 x8 x9 x10 x11 x12 x13 x14 x15 x16 x17 x18 x19 x20) := c in
  Build_card x0 x1 x2 x3 x4 v x6 x7 x8 x9 x10 x11 x12 x13 x14 x15 x16 x17 x18 x19 x20.

Definition set_audioContext (v : option obj) (c : card) : card :=
  let '(Build_card x0 x1 x2 x3 x4 x5 x6 x7 x8 x9 x10 x11 x12 x13 x14 x15 x16 x17 x18 x19 x20) := c in
  Build_card x0 x1 x2 x3 x4 x5 v x7 x8 x9 x10 x11 x12 x13 x14 x15 x16 x17 x18 x19 x20.

Definition set_mediaStream (v : option obj) (c : card) : card :=
  let '(Build_card x0 x1 x2 x3 x4 x5 x6 x7 x8 x9 x10 x11 x12 x13 x14 x15 x16 x17 x18 x19 x20) := c in
  Build_card x0 x1 x2 x3 x4 x5 x6 v x8 x9 x10 x11 x12 x13 x14 x15 x16 x17 x18 x19 x20.

Definition set_workletNode (v : option obj) (c : card) : card :=
  let '(Build_card x0 x1 x2 x3 x4 x5 x6 x7 x8 x9 x10 x11 x12 x13 x14 x15 x16 x17 x18 x19 x20) := c in
  Build_card x0 x1 x2 x3 x4 x5 x6 x7 v x9 x10 x11 x12 x13 x14 x15 x16 x17 x18 x19 x20.

Definition set_source (v : option obj) (c : card) : card :=
  let '(Build_card x0 x1 x2 x3 x4 x5 x6 x7 x8 x9 x10 x11 x12 x13 x14 x15 x16 x17 x18 x19 x20) := c in
  Build_card x0 x1 x2 x3 x4 x5 x6 x7 x8 v x10 x11 x12 x13 x14 x15 x16 x17 x18 x19 x20.

Definition set_playbackContext (v : option obj) (c : card) : card :=
  let '(Build_card x0 x1 x2 x3 x4 x5 x6 x7 x8 x9 x10 x11 x12 x13 x14 x15 x16 x17 x18 x19 x20) := c in
  Build_card x0 x1 x2 x3 x4 x5 x6 x7 x8 x9 v x11 x12 x13 x14 x15 x16 x17 x18 x19 x20.

Definition set_gainNode (v : option obj) (c : card) : card :=
  let '(Build_card x0 x1 x2 x3 x4 x5 x6 x7 x8 x9 x10 x11 x12 x13 x14 x15 x16 x17 x18 x19 x20) := c in
  Build_card x0 x1 x2 x3 x4 x5 x6 x7 x8 x9 x10 v x12 x13 x14 x15 x16 x17 x18 x19 x20.

Definition set_nextPlayTime (v : Q) (c : card) : card :=
  let '(Build_card x0 x1 x2 x3 x4 x5 x6 x7 x8 x9 x10 x11 x12 x13 x14 x15 x16 x17 x18 x19 x20) := c in
  Build_card x0 x1 x2 x3 x4 x5 x6 x7 x8 x9 x10 x11 v x13 x14 x15 x16 x17 x18 x19 x20.

Definition set_chunksDropped (v : nat) (c : card) : card :=
  let '(Build_card x0 x1 x2 x3 x4 x5 x6 x7 x8 x9 x10 x11 x12 x13 x14 x15 x16 x17 x18 x19 x20) := c in
  Build_card x0 x1 x2 x3 x4 x5 x6 x7 x8 x9 x10 x11 x12 v x14 x15 x16 x17 x18 x19 x20.

Definition set_unsubscribeAudio (v : option nat) (c : card) : card :=
  let '(Build_card x0 x1 x2 x3 x4 x5 x6 x7 x8 x9 x10 x11 x12 x13 x14 x15 x16 x17 x18 x19 x20) := c in
  Build_card x0 x1 x2 x3 x4 x5 x6 x7 x8 x9 x10 x11 x12 x13 v x15 x16 x17 x18 x19 x20.

Definition set_unsubscribeState (v : option nat) (c : card) : card :=
  let '(Build_card x0 x1 x2 x3 x4 x5 x6 x7 x8 x9 x10 x11 x12 x13 x14 x15 x16 x17 x18 x19 x20) := c in
  Build_card x0 x1 x2 x3 x4 x5 x6 x7 x8 x9 x10 x11 x12 x13 x14 v x16 x17 x18 x19 x20.

Definition set_chunksSent (v : nat) (c : card) : card :=
  let '(Build_card x0 x1 x2 x3 x4 x5 x6 x7 x8 x9 x10 x11 x12 x13 x14 x15 x16 x17 x18 x19 x20) := c in
  Build_card x0 x1 x2 x3 x4 x5 x6 x7 x8 x9 x10 x11 x12 x13 x14 x15 v x17 x18 x19 x20.

Definition set_chunksReceived (v : nat) (c : card) : card :=
  let '(Build_card x0 x1 x2 x3 x4 x5 x6 x7 x8 x9 x10 x11 x12 x13 x14 x15 x16 x17 x18 x19 x20) := c in
  Build_card x0 x1 x2 x3 x4 x5 x6 x7 x8 x9 x10 x11 x12 x13 x14 x15 x16 v x18 x19 x20.

Definition set_activeDeviceInfo (v : option device) (c : card) : card :=
  let '(Build_card x0 x1 x2 x3 x4 x5 x6 x7 x8 x9 x10 x11 x12 x13 x14 x15 x16 x17 x18 x19 x20) := c in
  Build_card x0 x1 x2 x3 x4 x5 x6 x7 x8 x9 x10 x11 x12 x13 x14 x15 x16 x17 v x19 x20.

Definition set_availableDevices (v : list device) (c : card) : card :=
  let '(Build_card x0 x1 x2 x3 x4 x5 x6 x7 x8 x9 x10 x11 x12 x13 x14 x15 x16 x17 x18 x19 x20) := c in
  Build_card x0 x1 x2 x3 x4 x5 x6 x7 x8 x9 x10 x11 x12 x13 x14 x15 x16 x17 x18 v x20.

Definition set_selectedDestination (v : jsval) (c : card) : card :=
  let '(Build_card x0 x1 x2 x3 x4 x5 x6 x7 x8 x9 x10 x11 x12 x13 x14 x15 x16 x17 x18 x19 x20) := c in
  Build_card x0 x1 x2 x3 x4 x5 x6 x7 x8 x9 x10 x11 x12 x13 x14 x15 x16 x17 x18 x19 v.

(** The fields as the constructor leaves them. *)
Definition constructor : card := {|
  config := None;
  _hass := false;
  _active := false;
  _ringing := false;
  _stopping := false;
  _starting := false;
  _audioContext := None;
  _mediaStream := None;
  _workletNode := None;
  _source := None;
  _playbackContext := None;
  _gainNode := None;
  _nextPlayTime := 0%Q;
  _chunksDropped := 0%nat;
  _unsubscribeAudio := None;
  _unsubscribeState := None;
  _chunksSent := 0%nat;
  _chunksReceived := 0%nat;
  _activeDeviceInfo := None;
  _availableDevices := [];
  _selectedDestination := Null
|}.

(* ===================================================================== *)
(** * Requests, effects and tasks *)
(* ===================================================================== *)

(** What a rejected promise or a thrown exception carries: [err.message]
    and [String(err)]. *)
Record error := { message : jsval; as_string : string }.

(** [err.message || String(err)] *)
Definition error_text (e : error) : string :=
  match js_or (message e) (Str (as_string e)) with
  | Str s => s
  | _ => ""
  end.

(** [new Error(msg)] *)
Definition Error (msg : string) : error :=
  {| message := Str msg; as_string := ("Error: " ++ msg)%string |}.

(** The [TypeError] of a property read on [null] or [undefined]; the text
    of its message depends on the engine and is left abstract. *)
Definition TypeError : error :=
  {| message := Str "TypeError"; as_string := "TypeError" |}.

(** The answer of the hub to [start] and [bridge]. *)
Record call_result := {
  success : bool;
  result_state : jsval;
  result_error : jsval
}.

(** The promises the card awaits, with the type of the value each resolves
    to. *)
Inductive request : Type -> Type :=
| list_devices : request (option (list device))
    (* intercom_native/list_devices; [Some ds] when [result && result.devices] *)
| start (device_id : string) (host : jsval) : request call_result
    (* intercom_native/start *)
| bridge (source_device_id : string) (source_host : jsval)
         (dest_device_id : string) (dest_host : jsval) : request call_result
    (* intercom_native/bridge *)
| stop (device_id : string) : request unit
    (* intercom_native/stop *)
| subscribeEvents (event_type : string) : request nat
    (* resolves to the function that unsubscribes *)
| getUserMedia : request obj
| resume : request unit                 (* this._audioContext.resume() *)
| addModule : request unit              (* audioWorklet.addModule(...) *)
| close_audioContext : request unit
| close_playbackContext : request unit.

(** How a promise settles: rejected with an error, or resolved. *)
Definition outcome (X : Type) : Type := (error + X)%type.

(** What a method does to the outside world, apart from awaiting. *)
Inductive effect :=
| Sent {X} (r : request X)              (* the request was issued *)
| Render                                (* this._render() *)
| ShowError (msg : string)              (* this._showError(msg) *)
| UpdateStats (sent received : nat)     (* this._updateStats() *)
| ConsoleError (msg : string)
| SendAudio (device_id audio : string)  (* sendMessage intercom_native/audio *)
| Unsubscribe (h : nat)
| StopTracks
| DisconnectWorklet
| DisconnectSource
| Play (when : Q) (samples : list Q)    (* src.start(when) on the chunk *)
| Uncaught (e : error).

(** A task is a method suspended on a promise; a step is the stretch of
    code that runs without suspension: the fields it leaves, what it did,
    and what remains. *)
Inductive task (A : Type) :=
| Done (a : A)
| Await {X} (r : request X) (k : outcome X -> card -> step A)
with step (A : Type) :=
| Step (c : card) (es : list effect) (t : task A).

Arguments Done {A} a.
Arguments Await {A X} r k.
Arguments Step {A} c es t.

Definition async (A : Type) := card -> step A.

Fixpoint step_bind {A B} (s : step A) (f : A -> async B) {struct s} : step B :=
  match s with
  | Step c es t =>
      match t with
      | Done a =>
          match f a c with
          | Step c' es' t' => Step c' (es ++ es') t'
          end
      | Await r k => Step c es (Await r (fun v c1 => step_bind (k v c1) f))
      end
  end.

Definition ret {A} (a : A) : async A := fun c => Step c [] (Done a).

Definition bind {A B} (m : async A) (f : A -> async B) : async B :=
  fun c => step_bind (m c) f.

Definition get : async card := fun c => Step c [] (Done c).

Definition modify (f : card -> card) : async unit :=
  fun c => Step (f c) [] (Done tt).

Definition emit (e : effect) : async unit := fun c => Step c [e] (Done tt).

Declare Scope async_scope.
Delimit Scope async_scope with async.
Notation "x <- m ;; k" := (bind m (fun x => k))
  (at level 61, m at next level, right associativity) : async_scope.
Notation "m ;; k" := (bind m (fun _ => k))
  (at level 61, right associativity) : async_scope.
Local Open Scope async_scope.

(** Code inside [try]: [inl e] is a thrown exception or a rejection. *)
Definition throws (A : Type) := async (error + A).

(** [await p]: the request is issued, the task is suspended, and the
    outcome is what the code after it sees (a rejection is thrown). *)
Definition await {X} (r : request X) : throws X :=
  fun c => Step c [Sent r] (Await r (fun v c1 => Step c1 [] (Done v))).

Definition throw {A} (e : error) : throws A := ret (inl e).

Definition ok {A} (a : A) : throws A := ret (inr a).

Definition try_bind {A B} (m : throws A) (f : A -> throws B) : throws B :=
  r <- m ;;
  match r with
  | inl e => ret (inl e)
  | inr a => f a
  end.

Notation "x <-? m ;; k" := (try_bind m (fun x => k))
  (at level 61, m at next level, right associativity) : async_scope.

(** A statement that cannot throw, inside [try]. *)
Definition lift {A} (m : async A) : throws A := a <- m ;; ok a.

Definition try_catch {A} (m : throws A) (handler : error -> async A) : async A :=
  r <- m ;;
  match r with
  | inl e => handler e
  | inr a => ret a
  end.

(** [this._hass.connection....]: a [TypeError] while [hass] is not set. *)
Definition hass_promise {X} (r : request X) : throws X :=
  c <- get ;;
  if _hass c then await r else throw TypeError.

(** [this._field.method(...)]: a [TypeError] when the field is [null]. *)
Definition field {A} (f : card -> option A) : throws A :=
  c <- get ;;
  match f c with
  | Some a => ok a
  | None => throw TypeError
  end.

(** Running a task to its end when nothing else touches the card while it
    waits: every promise settles as [oracle] says. *)
Definition oracle := forall X, request X -> outcome X.

Fixpoint run {A} (o : oracle) (s : step A) {struct s}
  : card * list effect * A :=
  match s with
  | Step c es t =>
      match t with
      | Done a => (c, es, a)
      | Await r k =>
          let '(c', es', a) := run o (k (o _ r) c) in
          (c', es ++ es', a)
      end
  end.

Definition final {A} (o : oracle) (s : step A) : card :=
  fst (fst (run o s)).

Definition trace {A} (o : oracle) (s : step A) : list effect :=
  snd (fst (run o s)).

(** What a handler does before it returns to the event loop. *)
Definition now_state {A} (s : step A) : card :=
  match s with Step c _ _ => c end.

Definition now_effects {A} (s : step A) : list effect :=
  match s with Step _ es _ => es end.

(* ===================================================================== *)
(** * The methods of [IntercomCard] *)
(* ===================================================================== *)

Definition _render : async unit := emit Render.

Definition _showError (msg : string) : async unit := emit (ShowError msg).

Definition _updateStats : async unit :=
  c <- get ;; emit (UpdateStats (_chunksSent c) (_chunksReceived c)).

Definition setConfig (cfg : card_config) : async unit :=
  modify (set_config (Some cfg)) ;; _render.

(** [this.config?.f] *)
Definition config_field (f : card_config -> jsval) (c : card) : jsval :=
  match config c with
  | Some cfg => f cfg
  | None => Undefined
  end.

Definition _getConfigDeviceId (c : card) : jsval :=
  js_or (config_field cfg_entity_id c) (config_field cfg_device_id c).

Definition _isPtmpMode (c : card) : bool :=
  strict_eq (config_field cfg_mode c) (Str "ptmp").

Definition _loadAvailableDevices : async unit :=
  c <- get ;;
  if negb (_hass c) then ret tt
  else
    try_catch
      (result <-? hass_promise list_devices ;;
       match result with
       | Some devices =>
           lift (c1 <- get ;;
                 let currentDeviceId := _getConfigDeviceId c1 in
                 modify (set_availableDevices
                   (filter (fun d =>
                      negb (strict_eq (Str (device_id d)) currentDeviceId))
                      devices)) ;;
                 _render)
       | None => ok tt
       end)
      (fun err => emit (ConsoleError "Failed to load available devices:")).

(** The [hass] setter, called with a [hass] object. *)
Definition hass_setter : async unit :=
  modify (set_hass true) ;;
  c <- get ;;
  if _isPtmpMode c && (List.length (_availableDevices c) =? 0)%nat
  then _loadAvailableDevices
  else ret tt.

(** [onchange] of the destination selector. *)
Definition destination_onchange (value : string) : async unit :=
  modify (set_selectedDestination (js_or (Str value) Null)) ;; _render.

(** The predicate of [find] in [_getDeviceInfo]. *)
Definition matches_config (configId : jsval) (d : device) : bool :=
  strict_eq (Str (device_id d)) configId
  || strict_eq (esphome_id d) configId
  || strict_eq (name d) configId
  || strict_eq (slug (name d)) configId.

Definition _getDeviceInfo : async (option device) :=
  try_catch
    (result <-? hass_promise list_devices ;;
     match result with
     | Some devices =>
         cfg <-? field config ;;
         let configId := js_or (cfg_entity_id cfg) (cfg_device_id cfg) in
         ok (find (matches_config configId) devices)
     | None => ok None
     end)
    (fun err => emit (ConsoleError "Failed to get device info:") ;; ret None).

Definition _cleanup : async unit :=
  (c <- get ;;
   match _unsubscribeAudio c with
   | Some h => emit (Unsubscribe h) ;; modify (set_unsubscribeAudio None)
   | None => ret tt
   end) ;;
  (c <- get ;;
   match _unsubscribeState c with
   | Some h => emit (Unsubscribe h) ;; modify (set_unsubscribeState None)
   | None => ret tt
   end) ;;
  (c <- get ;;
   match _mediaStream c with
   | Some _ => emit StopTracks ;; modify (set_mediaStream None)
   | None => ret tt
   end) ;;
  (c <- get ;;
   match _workletNode c with
   | Some _ => emit DisconnectWorklet ;; modify (set_workletNode None)
   | None => ret tt
   end) ;;
  (c <- get ;;
   match _source c with
   | Some _ => emit DisconnectSource ;; modify (set_source None)
   | None => ret tt
   end) ;;
  (c <- get ;;
   match _audioContext c with
   | Some _ => await close_audioContext ;; modify (set_audioContext None)
   | None => ret tt
   end) ;;
  (c <- get ;;
   match _playbackContext c with
   | Some _ => await close_playbackContext ;; modify (set_playbackContext None)
   | None => ret tt
   end) ;;
  modify (set_gainNode None) ;;
  modify (set_nextPlayTime 0%Q) ;;
  modify (set_chunksDropped 0%nat) ;;
  modify (set_ringing false).

Definition _hangup : async unit :=
  modify (set_stopping true) ;;
  _render ;;
  try_catch
    (c <- get ;;
     match _activeDeviceInfo c with
     | Some d => _ <-? hass_promise (stop (device_id d)) ;; ok tt
     | None => ok tt
     end)
    (fun err => ret tt) ;;
  _cleanup ;;
  modify (set_active false) ;;
  modify (set_ringing false) ;;
  modify (set_stopping false) ;;
  modify (set_activeDeviceInfo None) ;;
  _render.

(** [ctx_suspended] is [this._audioContext.state === "suspended"] for the
    context the method creates. *)
Definition _call (ctx_suspended : bool) : async unit :=
  deviceInfo <- _getDeviceInfo ;;
  match deviceInfo with
  | Some d =>
      if truthy (host d) then
        modify (set_activeDeviceInfo (Some d)) ;;
        modify (set_starting true) ;;
        _render ;;
        _showError "" ;;
        modify (set_chunksSent 0%nat) ;;
        modify (set_chunksReceived 0%nat) ;;
        try_catch
          (stream <-? await getUserMedia ;;
           _ <-? lift (modify (set_mediaStream (Some stream))) ;;
           _ <-? lift (modify (set_audioContext (Some Obj))) ;;
           _ <-? (if ctx_suspended then await resume else ok tt) ;;
           _ <-? field _audioContext ;;
           _ <-? await addModule ;;
           _ <-? field _audioContext ;;
           _ <-? field _mediaStream ;;
           _ <-? lift (modify (set_source (Some Obj))) ;;
           _ <-? lift (modify (set_workletNode (Some Obj))) ;;
           _ <-? lift (modify (set_playbackContext (Some Obj))) ;;
           _ <-? lift (modify (set_gainNode (Some Obj))) ;;
           result <-? hass_promise (start (device_id d) (host d)) ;;
           if negb (success result) then throw (Error "Start failed")
           else
             h <-? hass_promise (subscribeEvents "intercom_audio") ;;
             _ <-? lift (modify (set_unsubscribeAudio (Some h))) ;;
             h' <-? hass_promise (subscribeEvents "intercom_state") ;;
             _ <-? lift (modify (set_unsubscribeState (Some h'))) ;;
             _ <-? lift
               (if strict_eq (result_state result) (Str "ringing") then
                  modify (set_ringing true) ;; modify (set_active false)
                else
                  modify (set_active true) ;; modify (set_ringing false)) ;;
             _ <-? lift (modify (set_starting false)) ;;
             lift _render)
          (fun err =>
             _showError (error_text err) ;;
             _cleanup ;;
             modify (set_starting false) ;;
             _render)
      else _showError "Device IP not available"
  | None => _showError "Device IP not available"
  end.

Definition _bridge : async unit :=
  sourceDeviceInfo <- _getDeviceInfo ;;
  match sourceDeviceInfo with
  | Some src =>
      if truthy (host src) then
        c <- get ;;
        let destDevice :=
          find (fun d => strict_eq (Str (device_id d)) (_selectedDestination c))
               (_availableDevices c) in
        match destDevice with
        | Some dst =>
            if truthy (host dst) then
              modify (set_activeDeviceInfo (Some src)) ;;
              modify (set_starting true) ;;
              _render ;;
              _showError "" ;;
              try_catch
                (result <-? hass_promise
                   (bridge (device_id src) (host src)
                           (device_id dst) (host dst)) ;;
                 if negb (success result) then
                   throw (Error
                     (match js_or (result_error result) (Str "Bridge failed")
                      with Str s => s | _ => "" end))
                 else
                   h <-? hass_promise (subscribeEvents "intercom_bridge_state") ;;
                   _ <-? lift (modify (set_unsubscribeState (Some h))) ;;
                   _ <-? lift (modify (set_active true)) ;;
                   _ <-? lift (modify (set_starting false)) ;;
                   lift _render)
                (fun err =>
                   _showError (error_text err) ;;
                   modify (set_starting false) ;;
                   _render)
            else _showError "Destination device not selected or IP not available"
        | None => _showError "Destination device not selected or IP not available"
        end
      else _showError "Source device IP not available"
  | None => _showError "Source device IP not available"
  end.

Definition _toggle (ctx_suspended : bool) : async unit :=
  c <- get ;;
  if _starting c || _stopping c then ret tt
  else if _active c || _ringing c then _hangup
  else if _isPtmpMode c then _bridge
  else _call ctx_suspended.

Definition _handleBridgeStateEvent (ev : event bridge_data) : async unit :=
  c <- get ;;
  match ev, _activeDeviceInfo c with
  | Some data, Some active =>
      if negb (source_device_id data =? device_id active)
         && negb (strict_eq (Str (dest_device_id data)) (_selectedDestination c))
      then ret tt
      else if bridge_state data =? "connected" then
        modify (set_active true) ;; _render
      else if bridge_state data =? "disconnected" then _hangup
      else ret tt
  | _, _ => ret tt
  end.

Definition _sendAudio (int16Array : list Z) : async unit :=
  c <- get ;;
  match _activeDeviceInfo c with
  | Some active =>
      if negb (_active c) then ret tt
      else if negb (_hass c) then emit (Uncaught TypeError)
      else
        emit (SendAudio (device_id active) (encode_audio int16Array)) ;;
        modify (set_chunksSent (S (_chunksSent c))) ;;
        c1 <- get ;;
        if (Nat.modulo (_chunksSent c1) 25 =? 0)%nat then _updateStats
        else ret tt
  | None => ret tt
  end.

Definition _handleStateEvent (ev : event state_data) : async unit :=
  c <- get ;;
  match ev, _activeDeviceInfo c with
  | Some data, Some active =>
      if negb (state_device_id data =? device_id active) then ret tt
      else if state data =? "streaming" then
        modify (set_ringing false) ;; modify (set_active true) ;; _render
      else if state data =? "ringing" then
        modify (set_ringing true) ;; modify (set_active false) ;; _render
      else if state data =? "disconnected" then _hangup
      else ret tt
  | _, _ => ret tt
  end.

(** ** Jitter playback *)

Definition Qltb (x y : Q) : bool :=
  match (x ?= y)%Q with
  | Lt => true
  | _ => false
  end.

Definition minLookahead : Q := 1 # 100.      (* 0.01 *)
Definition resetLookahead : Q := 2 # 100.    (* 0.02 *)
Definition maxLookahead : Q := 2 # 10.       (* 0.2 *)

(** [createBuffer(1, length, 16000)]: the Web Audio API raises
    [NotSupportedError] ([None]) for a buffer of no frames; otherwise the
    buffer lasts [length / 16000] seconds. *)
Definition createBuffer (length : nat) : option Q :=
  if (length =? 0)%nat then None else Some (Z.of_nat length # 16000).

(** [buffer.duration] of the buffer made for a chunk. *)
Definition duration (float32 : list Q) : Q :=
  Z.of_nat (List.length float32) # 16000.

(** [now] is [this._playbackContext.currentTime], which is never
    negative. *)
Definition _playScheduled (float32 : list Q) (now : Q) : async unit :=
  c <- get ;;
  match _playbackContext c, _gainNode c with
  | Some _, Some _ =>
      match createBuffer (List.length float32) with
      | Some duration =>
          (if Qltb (_nextPlayTime c) now
           then modify (set_nextPlayTime (now + minLookahead)%Q)
           else ret tt) ;;
          c1 <- get ;;
          if Qltb maxLookahead (_nextPlayTime c1 - now)%Q then
            modify (set_chunksDropped (S (_chunksDropped c1))) ;;
            modify (set_nextPlayTime (now + resetLookahead)%Q)
          else
            emit (Play (_nextPlayTime c1) float32) ;;
            modify (set_nextPlayTime (_nextPlayTime c1 + duration)%Q)
      | None => ret tt
      end
  | _, _ => ret tt
  end.

(** [float32[i] = int16[i] / 32768.0] *)
Definition to_float32 (int16 : list Z) : list Q :=
  map (fun s => s # 32768) int16.

Definition _handleAudioEvent (ev : event audio_data) (now : Q) : async unit :=
  c <- get ;;
  match ev, _activeDeviceInfo c with
  | Some data, Some active =>
      if negb (audio_device_id data =? device_id active) then ret tt
      else if negb (_active c) || negb (is_object (_playbackContext c))
      then ret tt
      else
        modify (set_chunksReceived (S (_chunksReceived c))) ;;
        (c1 <- get ;;
         if (Nat.modulo (_chunksReceived c1) 50 =? 0)%nat then _updateStats
         else ret tt) ;;
        match decode_audio (audio data) with
        | Some int16 => _playScheduled (to_float32 int16) now
        | None => ret tt
        end
  | _, _ => ret tt
  end.

(* ===================================================================== *)
(** * Auxiliary definitions for the proofs *)
(* ===================================================================== *)

(** The 6-bit groups [btoa] writes for a binary string, before they are
    mapped to characters and padded. *)
Fixpoint b64_groups (s : list ascii) : list N :=
  match s with
  | [] => []
  | [a] =>
      let x := N_of_ascii a in
      [x / 4; (x mod 4) * 16]%N
  | [a; b] =>
      let x := N_of_ascii a in
      let y := N_of_ascii b in
      [x / 4; (x mod 4) * 16 + y / 16; (y mod 16) * 4]%N
  | a :: b :: c :: rest =>
      let x := N_of_ascii a in
      let y := N_of_ascii b in
      let z := N_of_ascii c in
      (x / 4 :: (x mod 4) * 16 + y / 16 :: (y mod 16) * 4 + z / 64
        :: z mod 64 :: b64_groups rest)%N
  end.

Fixpoint b64_padding (s : list ascii) : list ascii :=
  match s with
  | [] => []
  | [a] => [pad_char; pad_char]
  | [a; b] => [pad_char]
  | a :: b :: c :: rest => b64_padding rest
  end.

(** A character [btoa] can write for a 6-bit group: it maps back to the
    group, and is neither the padding character nor whitespace. *)
Definition b64_good (n : N) : bool :=
  match b64_index (b64_char n) with
  | Some m => (m =? n)%N
  | None => false
  end
  && negb (Ascii.eqb (b64_char n) pad_char)
  && negb (is_ascii_whitespace (b64_char n)).

(** ** Feeding the jitter buffer a sequence of chunks

    Each chunk comes with the reading of the audio clock at the time it is
    handled.  [_playScheduled] never suspends, so a chunk is handled in one
    step. *)
Fixpoint feed_log (chunks : list (list Q * Q)) (c : card)
  : list (Q * list effect) :=
  match chunks with
  | [] => []
  | (float32, now) :: rest =>
      let s := _playScheduled float32 now c in
      (now, now_effects s) :: feed_log rest (now_state s)
  end.

Fixpoint feed (chunks : list (list Q * Q)) (c : card) : card :=
  match chunks with
  | [] => c
  | (float32, now) :: rest => feed rest (now_state (_playScheduled float32 now c))
  end.

(** The start times of the chunks scheduled in a log, in order. *)
Fixpoint play_times (es : list effect) : list Q :=
  match es with
  | [] => []
  | Play when _ :: rest => when :: play_times rest
  | _ :: rest => play_times rest
  end.

Definition scheduled (log : list (Q * list effect)) : list Q :=
  flat_map (fun entry => play_times (snd entry)) log.

(** Every start time is the previous one plus [d]. *)
Fixpoint back_to_back (d : Q) (starts : list Q) : Prop :=
  match starts with
  | t1 :: (t2 :: _) as rest => t2 = (t1 + d)%Q /\ back_to_back d rest
  | _ => True
  end.

(** Every arrival is [d] after the previous one. *)
Fixpoint spaced (d : Q) (arrivals : list Q) : Prop :=
  match arrivals with
  | n1 :: (n2 :: _) as rest => (n2 == n1 + d)%Q /\ spaced d rest
  | _ => True
  end.

(** Every arrival is more than [d] after the previous one. *)
Fixpoint gaps_exceed (d : Q) (arrivals : list Q) : Prop :=
  match arrivals with
  | n1 :: (n2 :: _) as rest => (d < n2 - n1)%Q /\ gaps_exceed d rest
  | _ => True
  end.

(** A card whose playback graph exists, as [_call] builds it. *)
Definition can_play (c : card) : Prop :=
  is_object (_playbackContext c) = true /\ is_object (_gainNode c) = true.

(** [k] start times from [p] on, each [d] after the previous one. *)
Fixpoint starts_from (d p : Q) (k : nat) : list Q :=
  match k with
  | O => []
  | S k' => p :: starts_from d (p + d)%Q k'
  end.

(** The chunk [float32] arriving at each of [arrivals]. *)
Definition arriving (float32 : list Q) (arrivals : list Q) : list (list Q * Q) :=
  map (fun now => (float32, now)) arrivals.

(** [d && d.host] for the result of a lookup. *)
Definition usable (d : option device) : bool :=
  match d with
  | Some d => truthy (host d)
  | None => false
  end.

(** The device [_bridge] looks up for the selected destination. *)
Definition destDevice (c : card) : option device :=
  find (fun d => strict_eq (Str (device_id d)) (_selectedDestination c))
       (_availableDevices c).

(** The device [_getDeviceInfo] resolves to when the hub answers as [o]. *)
Definition sourceDevice (o : oracle) (c : card) : option device :=
  snd (run o (_getDeviceInfo c)).

Definition is_bridge_request (e : effect) : bool :=
  match e with
  | Sent r =>
      match r with
      | bridge _ _ _ _ => true
      | _ => false
      end
  | _ => false
  end.

(** A suspended task, resumed once with the answer of [o]. *)
Definition resume_with {A} (o : oracle) (s : step A) : step A :=
  match s with
  | Step c es (Await r k) => k (o _ r) c
  | Step c es (Done a) => s
  end.

(** The status line [_render] shows on a configured card. *)
Definition statusText (c : card) : string :=
  if _starting c then "Connecting..."
  else if _stopping c then "Ending call..."
  else if _ringing c then "Ringing..."
  else if _active c then "In Call"
  else "Ready".

(** What [_cleanup] releases, in order, and the fields it leaves. *)
Definition released (c : card) : list effect :=
  match _unsubscribeAudio c with Some h => [Unsubscribe h] | None => [] end
  ++ match _unsubscribeState c with Some h => [Unsubscribe h] | None => [] end
  ++ (if is_object (_mediaStream c) then [StopTracks] else [])
  ++ (if is_object (_workletNode c) then [DisconnectWorklet] else [])
  ++ (if is_object (_source c) then [DisconnectSource] else [])
  ++ (if is_object (_audioContext c) then [Sent close_audioContext] else [])
  ++ (if is_object (_playbackContext c) then [Sent close_playbackContext]
      else []).

Definition cleaned (c : card) : card :=
  set_ringing false (set_chunksDropped 0%nat (set_nextPlayTime 0%Q
    (set_gainNode None (set_playbackContext None (set_audioContext None
      (set_source None (set_workletNode None (set_mediaStream None
        (set_unsubscribeState None (set_unsubscribeAudio None c)))))))))).

(** ** States used in examples *)

(** A card that can play, with the schedule cursor at [next]. *)
Definition playing (next : Q) : card :=
  set_nextPlayTime next
    (set_gainNode (Some Obj) (set_playbackContext (Some Obj) constructor)).

(** Two intercom devices and a hub that lists them, accepts every request
    and answers [start] with the given state. *)
Definition kitchen : device := {|
  device_id := "abc123";
  name := Str "Kitchen Panel";
  host := Str "192.168.1.20";
  esphome_id := Str "kitchen-intercom"
|}.

Definition hallway : device := {|
  device_id := "def456";
  name := Str "Hallway";
  host := Str "192.168.1.21";
  esphome_id := Str "hallway-intercom"
|}.

Definition hub (start_state : jsval) : oracle :=
  fun X r =>
    match r in request X return outcome X with
    | list_devices => inr (Some [kitchen; hallway])
    | start _ _ =>
        inr {| success := true; result_state := start_state;
               result_error := Undefined |}
    | bridge _ _ _ _ =>
        inr {| success := true; result_state := Undefined;
               result_error := Undefined |}
    | stop _ => inr tt
    | subscribeEvents _ => inr 1%nat
    | getUserMedia => inr Obj
    | resume => inr tt
    | addModule => inr tt
    | close_audioContext => inr tt
    | close_playbackContext => inr tt
    end.

(** A card configured with [cfg] and given its [hass] object. *)
Definition configured (cfg : card_config) : card :=
  final (hub Undefined)
    (hass_setter (final (hub Undefined) (setConfig cfg constructor))).

Definition p2p_config : card_config := {|
  cfg_entity_id := Str "abc123";
  cfg_device_id := Undefined;
  cfg_name := Undefined;
  cfg_mode := Undefined
|}.

(** The card after the button was pressed and the endpoint answered
    [start] with "ringing", and with "streaming". *)
Definition ringing_card : card :=
  final (hub (Str "ringing")) (_toggle false (configured p2p_config)).

Definition streaming_card : card :=
  final (hub (Str "streaming")) (_toggle false (configured p2p_config)).

(** The card while [_call] waits for the microphone: a start is in
    progress. *)
Definition starting_card : card :=
  now_state (resume_with (hub Undefined)
               (_toggle false (configured p2p_config))).

(** A PTMP card for the kitchen panel, configured by its device id, with
    the hallway selected; and the same once the bridge is up. *)
Definition ptmp_config : card_config := {|
  cfg_entity_id := Str "abc123";
  cfg_device_id := Undefined;
  cfg_name := Undefined;
  cfg_mode := Str "ptmp"
|}.

Definition bridge_ready_card : card :=
  final (hub Undefined) (destination_onchange "def456" (configured ptmp_config)).

Definition bridged_card : card :=
  final (hub Undefined) (_toggle false bridge_ready_card).

(** A PTMP card for the kitchen panel, configured by its ESPHome id. *)
Definition ptmp_config_by_name : card_config := {|
  cfg_entity_id := Str "kitchen-intercom";
  cfg_device_id := Undefined;
  cfg_name := Undefined;
  cfg_mode := Str "ptmp"
|}.

(** A chunk of 256 samples of silence: 16 ms at 16 kHz. *)
Definition silence : list Q := repeat 0%Q 256.

(** ** Tactics *)

(** Linear arithmetic with division and remainder by constants. *)
Ltac divlia := zify; Z.to_euclidean_division_equations; lia.

(** Finds an element in a disjunction of equalities. *)
Ltac find_in := solve [exact eq_refl | left; find_in | right; find_in].

(* ===================================================================== *)
(** * The button and the destination list that [_render] draws *)
(* ===================================================================== *)

(** [_render] draws the button only for a configured card. *)
Definition hasButton (c : card) : bool := truthy (_getConfigDeviceId c).

Definition statusClass (c : card) : string :=
  if _starting c || _stopping c then "transitioning"
  else if _ringing c then "ringing"
  else if _active c then "connected"
  else "disconnected".

Definition buttonClass (c : card) : string :=
  if _active c then "hangup"
  else if _ringing c then "ringing"
  else "call".

(** The [disabled] attribute of the button. *)
Definition buttonDisabled (c : card) : bool :=
  _starting c || _stopping c
  || (_isPtmpMode c && negb (truthy (_selectedDestination c))
      && negb (_active c)).

Definition buttonLabel (c : card) : string :=
  if _stopping c then "..."
  else if _active c || _ringing c then "Hangup"
  else if _isPtmpMode c then "Bridge"
  else "Call".

(** The [value]s of the options of the destination selector, after the
    empty one. *)
Definition destinationOptions (c : card) : list string :=
  if _isPtmpMode c then map device_id (_availableDevices c) else [].

(** ** Shapes of the card's state *)

(** No subscription and no audio resource is held. *)
Definition released_all (c : card) : Prop :=
  _unsubscribeAudio c = None /\ _unsubscribeState c = None
  /\ _mediaStream c = None /\ _workletNode c = None /\ _source c = None
  /\ _audioContext c = None /\ _playbackContext c = None
  /\ _gainNode c = None.

(** Both subscriptions and the whole audio graph are held, as at the end
    of a successful [_call]. *)
Definition established (c : card) : Prop :=
  is_object (_unsubscribeAudio c) = true
  /\ is_object (_unsubscribeState c) = true
  /\ is_object (_mediaStream c) = true /\ is_object (_workletNode c) = true
  /\ is_object (_source c) = true /\ is_object (_audioContext c) = true
  /\ is_object (_playbackContext c) = true /\ is_object (_gainNode c) = true.

Definition is_start_request (e : effect) : bool :=
  match e with
  | Sent r =>
      match r with
      | start _ _ => true
      | _ => false
      end
  | _ => false
  end.

Definition is_stop_request (e : effect) : bool :=
  match e with
  | Sent r =>
      match r with
      | stop _ => true
      | _ => false
      end
  | _ => false
  end.

Definition is_subscribe_request (e : effect) : bool :=
  match e with
  | Sent r =>
      match r with
      | subscribeEvents _ => true
      | _ => false
      end
  | _ => false
  end.

Definition is_list_request (e : effect) : bool :=
  match e with
  | Sent r =>
      match r with
      | list_devices => true
      | _ => false
      end
  | _ => false
  end.

(** The request for the device list, or a message on the console. *)
Definition lookup_only (e : effect) : bool :=
  match e with
  | Sent r =>
      match r with
      | list_devices => true
      | _ => false
      end
  | ConsoleError _ => true
  | _ => false
  end.

Definition is_play (e : effect) : bool :=
  match e with
  | Play _ _ => true
  | _ => false
  end.

(** The statistics line, refreshed when the counter reaches a multiple of
    [every]. *)
Definition stats_refresh (every sent received count : nat) : list effect :=
  if (Nat.modulo count every =? 0)%nat then [UpdateStats sent received]
  else [].

(** What [_hangup] leaves and the stop request it sends. *)
Definition hung_up (c : card) : card :=
  set_activeDeviceInfo None
    (set_stopping false (set_ringing false (set_active false
       (cleaned (set_stopping true c))))).

Definition stop_sent (c : card) : list effect :=
  match _activeDeviceInfo c with
  | Some d => if _hass c then [Sent (stop (device_id d))] else []
  | None => []
  end.

(** Destructs the answers of the platform a run depends on, one after the
    other. *)
Ltac settle_answers o :=
  repeat (cbn;
          match goal with
          | |- context [o ?X ?r] => destruct (o X r) as [?|?]
          end).

(** Follows a run of [_call] or [_bridge] through every answer of the
    platform. *)
Ltac follow_call o :=
  repeat (cbn;
          match goal with
          | |- context [o ?X ?r] => destruct (o X r) as [?|?] eqn:?
          | |- context [negb (success ?r)] => destruct (success r) eqn:?
          | |- context [strict_eq (result_state ?r) ?s] =>
              destruct (strict_eq (result_state r) s) eqn:?
          end);
  cbn.

(** Checks a property of every effect of an explicit list. *)
Ltac quiet_list :=
  repeat (apply Forall_cons; [reflexivity|]); apply Forall_nil.

(** The hub [o], except that the browser refuses the microphone. *)
Definition without_microphone (o : oracle) : oracle :=
  fun X r =>
    match r in request X return outcome X with
    | getUserMedia => inl (Error "Permission denied")
    | list_devices => o _ list_devices
    | start i h => o _ (start i h)
    | bridge si sh di dh => o _ (bridge si sh di dh)
    | stop i => o _ (stop i)
    | subscribeEvents t => o _ (subscribeEvents t)
    | resume => o _ resume
    | addModule => o _ addModule
    | close_audioContext => o _ close_audioContext
    | close_playbackContext => o _ close_playbackContext
    end.

(** The hub [o], except that it refuses every bridge with [reason]. *)
Definition refusing_bridges (reason : jsval) (o : oracle) : oracle :=
  fun X r =>
    match r in request X return outcome X with
    | bridge si sh di dh =>
        inr {| success := false; result_state := Undefined;
               result_error := reason |}
    | getUserMedia => o _ getUserMedia
    | list_devices => o _ list_devices
    | start i h => o _ (start i h)
    | stop i => o _ (stop i)
    | subscribeEvents t => o _ (subscribeEvents t)
    | resume => o _ resume
    | addModule => o _ addModule
    | close_audioContext => o _ close_audioContext
    | close_playbackContext => o _ close_playbackContext
    end.

(** The text [_bridge] shows for an answer of the hub that is not a
    success: the rejection's text, or [result.error || "Bridge failed"]. *)
Definition bridge_failure_text (answer : outcome call_result) : option string :=
  match answer with
  | inl err => Some (error_text err)
  | inr result =>
      if success result then None
      else Some (match js_or (result_error result) (Str "Bridge failed") with
                 | Str s => s
                 | _ => ""
                 end)
  end.

(* ===================================================================== *)
(** * Sessions: what can happen to a card, one thing after the other *)
(* ===================================================================== *)

(** The entry points of the card: the setters Home Assistant calls, the
    two controls, the three event subscriptions and the worklet's message
    handler. *)
Inductive action :=
| do_setConfig (cfg : card_config)
| do_set_hass
| do_select (value : string)
| do_press (ctx_suspended : bool)
| do_audio_event (ev : event audio_data) (now : Q)
| do_state_event (ev : event state_data)
| do_bridge_event (ev : event bridge_data)
| do_capture (samples : list Z).

Definition handler (a : action) : async unit :=
  match a with
  | do_setConfig cfg => setConfig cfg
  | do_set_hass => hass_setter
  | do_select value => destination_onchange value
  | do_press ctx_suspended => _toggle ctx_suspended
  | do_audio_event ev now => _handleAudioEvent ev now
  | do_state_event ev => _handleStateEvent ev
  | do_bridge_event ev => _handleBridgeStateEvent ev
  | do_capture samples => _sendAudio samples
  end.

(** Each action is run to its end, against the answers the platform gives
    at that time, before the next one starts. *)
Fixpoint session (steps : list (oracle * action)) (c : card) : card :=
  match steps with
  | [] => c
  | (o, a) :: rest => session rest (final o (handler a c))
  end.

(** No transition is running, and a card that is neither active nor
    ringing holds nothing. *)
Definition settled (c : card) : Prop :=
  _starting c = false /\ _stopping c = false
  /\ (_active c = false -> _ringing c = false -> released_all c).

(** The flags and the resources [settled] speaks of. *)
Definition footprint (c : card) :=
  (_starting c, _stopping c, _active c, _ringing c,
   (_unsubscribeAudio c, _unsubscribeState c, _mediaStream c, _workletNode c),
   (_source c, _audioContext c, _playbackContext c, _gainNode c)).

(** Splits on every test the code makes on a field or an input. *)
Ltac split_tests :=
  repeat (cbn -[Nat.modulo decode_audio];
          match goal with
          | |- context [if ?b then _ else _] => destruct b eqn:?
          | |- context [match ?x with Some _ => _ | None => _ end] =>
              destruct x eqn:?
          end);
  cbn -[Nat.modulo decode_audio].

(** The devices [_loadAvailableDevices] keeps of a list. *)
Definition others (c : card) (devices : list device) : list device :=
  filter (fun d => negb (strict_eq (Str (device_id d)) (_getConfigDeviceId c)))
         devices.

(** The test of the [hass] setter. *)
Definition needs_devices (c : card) : bool :=
  _isPtmpMode c && (List.length (_availableDevices c) =? 0)%nat.

(* ===================================================================== *)
(** * The card editor ([IntercomCardEditor]) *)
(* ===================================================================== *)

Module Editor.

(** The instance fields. *)
Record editor := {
  _config : option card_config;
  _hass : bool;
  _devices : list device;
  _devicesLoaded : bool
}.

(** [{}] *)
Definition empty_config : card_config := {|
  cfg_entity_id := Undefined;
  cfg_device_id := Undefined;
  cfg_name := Undefined;
  cfg_mode := Undefined
|}.

Definition constructor : editor := {|
  _config := Some empty_config;
  _hass := false;
  _devices := [];
  _devicesLoaded := false
|}.

(** What the editor does to the outside world. *)
Inductive effect :=
| Render                                  (* this._render() *)
| ListDevices                             (* intercom_native/list_devices *)
| ConsoleError (msg : string)
| ConfigChanged (newConfig : card_config). (* the "config-changed" event *)

Definition setConfig (cfg : card_config) (e : editor) : editor * list effect :=
  ({| _config := Some cfg; _hass := _hass e; _devices := _devices e;
      _devicesLoaded := _devicesLoaded e |},
   [Render]).

(** [_loadDevices] up to its [await]: whether the request is sent. *)
Definition _loadDevices_asks (e : editor) : bool :=
  negb (negb (_hass e) || _devicesLoaded e).

(** [_loadDevices] from its [await] on, on the fields as they are when the
    promise settles. *)
Definition _loadDevices_settles (answer : outcome (option (list device)))
           (e : editor) : editor * list effect :=
  match answer with
  | inr (Some devices) =>
      ({| _config := _config e; _hass := _hass e; _devices := devices;
          _devicesLoaded := true |},
       [Render])
  | inr None => (e, [])
  | inl _ => (e, [ConsoleError "Failed to load intercom devices:"])
  end.

(** [_loadDevices], run to its end with nothing in between. *)
Definition _loadDevices (answer : outcome (option (list device)))
           (e : editor) : editor * list effect :=
  if _loadDevices_asks e then
    let '(e', es) := _loadDevices_settles answer e in (e', ListDevices :: es)
  else (e, []).

(** The [hass] setter, called with a [hass] object. *)
Definition hass_setter (answer : outcome (option (list device)))
           (e : editor) : editor * list effect :=
  let e1 := {| _config := _config e; _hass := true; _devices := _devices e;
               _devicesLoaded := _devicesLoaded e |} in
  if negb (_devicesLoaded e1) then _loadDevices answer e1 else (e1, []).

(** The keys the controls of the editor write. *)
Inductive key := entity_id | name | mode.

(** [newConfig[key] = value] and [delete newConfig[key]] *)
Definition assign (k : key) (v : jsval) (cfg : card_config) : card_config :=
  match k with
  | entity_id =>
      {| cfg_entity_id := v; cfg_device_id := cfg_device_id cfg;
         cfg_name := cfg_name cfg; cfg_mode := cfg_mode cfg |}
  | name =>
      {| cfg_entity_id := cfg_entity_id cfg;
         cfg_device_id := cfg_device_id cfg;
         cfg_name := v; cfg_mode := cfg_mode cfg |}
  | mode =>
      {| cfg_entity_id := cfg_entity_id cfg;
         cfg_device_id := cfg_device_id cfg;
         cfg_name := cfg_name cfg; cfg_mode := v |}
  end.

(** [this._config[key]] *)
Definition lookup (k : key) (cfg : card_config) : jsval :=
  match k with
  | entity_id => cfg_entity_id cfg
  | name => cfg_name cfg
  | mode => cfg_mode cfg
  end.

(** [_valueChanged(key, value)]: the fields are left alone; a copy of the
    configuration, changed at [key], is dispatched. *)
Definition _valueChanged (k : key) (value : string) (e : editor)
  : list effect :=
  match _config e with
  | None => []
  | Some cfg =>
      [ConfigChanged
         (if negb (value =? "") then assign k (Str value) cfg
          else assign k Undefined cfg)]
  end.

(** [this._config.mode || 'p2p'], which decides the button shown as
    selected. *)
Definition currentMode (cfg : card_config) : jsval :=
  js_or (cfg_mode cfg) (Str "p2p").

(** The [value]s of the options of the device selector, after the empty
    one, and whether each is shown as selected. *)
Definition deviceOptions (e : editor) (cfg : card_config)
  : list (string * bool) :=
  map (fun d => (device_id d,
                 strict_eq (cfg_entity_id cfg) (Str (device_id d))))
      (_devices e).

End Editor.

(* ===================================================================== *)
(** * Streams of captured chunks and of audio events *)
(* ===================================================================== *)

(** The worklet posts [chunks], one message after the other. *)
Fixpoint capture (chunks : list (list Z)) (c : card) : card * list effect :=
  match chunks with
  | [] => (c, [])
  | samples :: rest =>
      let s := _sendAudio samples c in
      let '(c', es) := capture rest (now_state s) in
      (c', now_effects s ++ es)
  end.

(** The audio messages among some effects: device id and payload. *)
Definition audio_messages (es : list effect) : list (string * string) :=
  flat_map (fun e => match e with
                     | SendAudio i a => [(i, a)]
                     | _ => []
                     end) es.

(** The hub delivers [events], each handled at its clock reading. *)
Fixpoint deliver (events : list (event audio_data * Q)) (c : card) : card :=
  match events with
  | [] => c
  | (ev, now) :: rest => deliver rest (now_state (_handleAudioEvent ev now c))
  end.

(** Whether an event carries data that names device [d]. *)
Definition addressed_to (d : device) (delivery : event audio_data * Q) : bool :=
  match fst delivery with
  | Some data => audio_device_id data =? device_id d
  | None => false
  end.

(* ===================================================================== *)
(** * Properties of the audio encoding *)
(* ===================================================================== *)

Section Base64.

(** Induction over a binary string three characters at a time, as
    [btoa] consumes it. *)
Lemma triples_ind (P : list ascii -> Prop) :
  P [] ->
  (forall a, P [a]) ->
  (forall a b, P [a; b]) ->
  (forall a b c rest, P rest -> P (a :: b :: c :: rest)) ->
  forall s, P s.
Proof.
  intros H0 H1 H2 H3.
  assert (H : forall s, P s /\ (forall a, P (a :: s)) /\ (forall a b, P (a :: b :: s))).
  { induction s as [|x s [IH0 [IH1 IH2]]].
    - repeat split; auto.
    - repeat split; auto. }
  intro s. apply H.
Qed.

Lemma b64_good_all : forall n, (n < 64)%N -> b64_good n = true.
Proof.
  intros n Hn.
  assert (Hall : forallb b64_good (map N.of_nat (seq 0 64)) = true)
    by (vm_compute; reflexivity).
  rewrite forallb_forall in Hall. apply Hall.
  apply in_map_iff. exists (N.to_nat n). split.
  - apply N2Nat.id.
  - apply in_seq. lia.
Qed.

Lemma b64_index_char n : (n < 64)%N -> b64_index (b64_char n) = Some n.
Proof.
  intro Hn. pose proof (b64_good_all n Hn) as H. unfold b64_good in H.
  apply andb_true_iff in H. destruct H as [H _].
  apply andb_true_iff in H. destruct H as [H _].
  destruct (b64_index (b64_char n)) as [m|]; [|discriminate].
  apply N.eqb_eq in H. now subst.
Qed.

Lemma b64_char_not_pad n : (n < 64)%N -> b64_char n <> pad_char.
Proof.
  intro Hn. pose proof (b64_good_all n Hn) as H. unfold b64_good in H.
  apply andb_true_iff in H. destruct H as [H _].
  apply andb_true_iff in H. destruct H as [_ H].
  intro E. rewrite E, Ascii.eqb_refl in H. discriminate.
Qed.

Lemma b64_char_not_space n :
  (n < 64)%N -> is_ascii_whitespace (b64_char n) = false.
Proof.
  intro Hn. pose proof (b64_good_all n Hn) as H. unfold b64_good in H.
  apply andb_true_iff in H. destruct H as [_ H].
  now apply negb_true_iff in H.
Qed.

Lemma N_of_ascii_bound a : (N_of_ascii a < 256)%N.
Proof. apply N_ascii_bounded. Qed.

Lemma b64_groups_bound s : Forall (fun n => (n < 64)%N) (b64_groups s).
Proof.
  induction s as [|a|a b|a b c rest IH] using triples_ind; cbn [b64_groups].
  - constructor.
  - pose proof (N_of_ascii_bound a).
    repeat apply Forall_cons; try apply Forall_nil; divlia.
  - pose proof (N_of_ascii_bound a). pose proof (N_of_ascii_bound b).
    repeat apply Forall_cons; try apply Forall_nil; divlia.
  - pose proof (N_of_ascii_bound a). pose proof (N_of_ascii_bound b).
    pose proof (N_of_ascii_bound c).
    repeat (apply Forall_cons; [divlia|]). exact IH.
Qed.

Lemma btoa_chars_groups s :
  btoa_chars s = map b64_char (b64_groups s) ++ b64_padding s.
Proof.
  induction s as [|a|a b|a b c rest IH] using triples_ind;
    cbn [btoa_chars b64_groups b64_padding map app]; try reflexivity.
  now rewrite IH.
Qed.

Lemma decode_groups s : decode_sextets (b64_groups s) = s.
Proof.
  induction s as [|a|a b|a b c rest IH] using triples_ind;
    cbn [b64_groups decode_sextets].
  - reflexivity.
  - pose proof (N_of_ascii_bound a).
    replace (N_of_ascii a / 4 * 4 + N_of_ascii a mod 4 * 16 / 16)%N
      with (N_of_ascii a) by divlia.
    now rewrite ascii_N_embedding.
  - pose proof (N_of_ascii_bound a). pose proof (N_of_ascii_bound b).
    replace (N_of_ascii a / 4 * 4
             + (N_of_ascii a mod 4 * 16 + N_of_ascii b / 16) / 16)%N
      with (N_of_ascii a) by divlia.
    replace ((N_of_ascii a mod 4 * 16 + N_of_ascii b / 16) mod 16 * 16
             + N_of_ascii b mod 16 * 4 / 4)%N
      with (N_of_ascii b) by divlia.
    now rewrite !ascii_N_embedding.
  - pose proof (N_of_ascii_bound a). pose proof (N_of_ascii_bound b).
    pose proof (N_of_ascii_bound c).
    replace (N_of_ascii a / 4 * 4
             + (N_of_ascii a mod 4 * 16 + N_of_ascii b / 16) / 16)%N
      with (N_of_ascii a) by divlia.
    replace ((N_of_ascii a mod 4 * 16 + N_of_ascii b / 16) mod 16 * 16
             + (N_of_ascii b mod 16 * 4 + N_of_ascii c / 64) / 4)%N
      with (N_of_ascii b) by divlia.
    replace ((N_of_ascii b mod 16 * 4 + N_of_ascii c / 64) mod 4 * 64
             + N_of_ascii c mod 64)%N
      with (N_of_ascii c) by divlia.
    now rewrite !ascii_N_embedding, IH.
Qed.

Lemma sextets_map ns :
  Forall (fun n => (n < 64)%N) ns -> sextets (map b64_char ns) = Some ns.
Proof.
  induction 1 as [|n ns Hn _ IH]; cbn [map sextets].
  - reflexivity.
  - now rewrite (b64_index_char n Hn), IH.
Qed.

Lemma filter_all {A} (f : A -> bool) l : forallb f l = true -> filter f l = l.
Proof.
  induction l as [|x l IH]; cbn [forallb filter]; intro H.
  - reflexivity.
  - apply andb_true_iff in H. destruct H as [Hx Hl].
    rewrite Hx. now rewrite IH.
Qed.

Lemma mod4 k r : (r < 4 -> (4 * k + r) mod 4 = r)%nat.
Proof. intro H. symmetry. apply Nat.mod_unique with (q := k); lia. Qed.

Lemma padding_cases s :
  exists k : nat,
    (List.length (b64_groups s) = 4 * k /\ b64_padding s = [])%nat
    \/ (List.length (b64_groups s) = 4 * k + 2
        /\ b64_padding s = [pad_char; pad_char])%nat
    \/ (List.length (b64_groups s) = 4 * k + 3
        /\ b64_padding s = [pad_char])%nat.
Proof.
  induction s as [|a|a b|a b c rest IH] using triples_ind.
  - exists 0%nat. left. split; reflexivity.
  - exists 0%nat. right. left. split; reflexivity.
  - exists 0%nat. right. right. split; reflexivity.
  - destruct IH as [k IH]. exists (S k).
    cbn [b64_groups b64_padding List.length].
    destruct IH as [[Hl Hp]|[[Hl Hp]|[Hl Hp]]]; rewrite Hl, Hp;
      [left|right; left|right; right]; split; try reflexivity; lia.
Qed.

Lemma btoa_no_space s :
  filter (fun c => negb (is_ascii_whitespace c)) (btoa_chars s) = btoa_chars s.
Proof.
  apply filter_all. rewrite btoa_chars_groups, forallb_app.
  apply andb_true_iff. split.
  - apply forallb_forall. intros c Hc.
    apply in_map_iff in Hc. destruct Hc as [n [<- Hn]].
    pose proof (b64_groups_bound s) as Hb. rewrite Forall_forall in Hb.
    now rewrite b64_char_not_space by auto.
  - destruct (padding_cases s) as [k [[_ Hp]|[[_ Hp]|[_ Hp]]]];
      rewrite Hp; reflexivity.
Qed.

(** The characters of the groups never are the padding character, so
    stripping removes the padding and nothing else. *)
Lemma strip_padding_btoa s :
  strip_padding (btoa_chars s) = map b64_char (b64_groups s).
Proof.
  rewrite btoa_chars_groups.
  set (body := map b64_char (b64_groups s)).
  assert (Hbody : forall c, In c body -> Ascii.eqb c pad_char = false).
  { intros c Hc. apply in_map_iff in Hc. destruct Hc as [n [<- Hn]].
    pose proof (b64_groups_bound s) as Hb. rewrite Forall_forall in Hb.
    apply Ascii.eqb_neq, b64_char_not_pad; auto. }
  assert (Hlen : List.length body = List.length (b64_groups s))
    by apply length_map.
  unfold strip_padding.
  destruct (padding_cases s) as [k [[Hl Hp]|[[Hl Hp]|[Hl Hp]]]];
    rewrite Hp, length_app, rev_app_distr, Hlen, Hl; cbn [List.length rev app].
  - rewrite mod4 by lia. cbn [Nat.eqb].
    rewrite app_nil_r.
    destruct (rev body) as [|p [|q r]] eqn:E; try reflexivity.
    + rewrite Hbody; [reflexivity|]. apply in_rev. rewrite E. now left.
    + rewrite Hbody; [reflexivity|]. apply in_rev. rewrite E. now left.
  - replace (4 * k + 2 + 2)%nat with (4 * S k + 0)%nat by lia.
    rewrite mod4 by lia. cbn [Nat.eqb].
    cbn. now rewrite rev_involutive.
  - replace (4 * k + 3 + 1)%nat with (4 * S k + 0)%nat by lia.
    rewrite mod4 by lia. cbn [Nat.eqb].
    destruct (rev body) as [|q r] eqn:E.
    + apply (f_equal (@List.length _)) in E.
      rewrite length_rev, Hlen, Hl in E. cbn in E. lia.
    + cbn [app]. rewrite Ascii.eqb_refl.
      rewrite Hbody by (apply in_rev; rewrite E; now left).
      change (rev (q :: r) = body).
      rewrite <- E. apply rev_involutive.
Qed.

Lemma atob_btoa_chars s : atob_chars (btoa_chars s) = Some s.
Proof.
  unfold atob_chars. rewrite btoa_no_space, strip_padding_btoa, length_map.
  replace (List.length (b64_groups s) mod 4 =? 1)%nat with false.
  - rewrite sextets_map by apply b64_groups_bound.
    cbn [option_map]. now rewrite decode_groups.
  - symmetry. apply Nat.eqb_neq.
    destruct (padding_cases s) as [k [[Hl _]|[[Hl _]|[Hl _]]]]; rewrite Hl;
      [replace (4 * k)%nat with (4 * k + 0)%nat by lia| |];
      rewrite mod4; lia.
Qed.

(** [atob] undoes [btoa] on every binary string. *)
Lemma atob_btoa binary : atob (btoa binary) = Some binary.
Proof.
  unfold atob, btoa.
  rewrite list_ascii_of_string_of_list_ascii, atob_btoa_chars.
  cbn [option_map]. now rewrite string_of_list_ascii_of_string.
Qed.

End Base64.

Section Pcm.

Lemma chunk_size_pos : (0 < chunk_size)%nat.
Proof. unfold chunk_size. lia. Qed.

Lemma fromCharCode_app l1 l2 :
  fromCharCode (l1 ++ l2) = fromCharCode l1 ++ fromCharCode l2.
Proof. apply map_app. Qed.

(** The loop of [_sendAudio] ends within [bytes.length] iterations and
    has then converted every byte, in order. *)
Lemma binary_loop_spec fuel : forall i bytes binary,
  (List.length bytes - i <= fuel)%nat ->
  binary_loop fuel i bytes binary = binary ++ fromCharCode (skipn i bytes).
Proof.
  induction fuel as [|fuel IH]; intros i bytes binary Hfuel;
    cbn [binary_loop].
  - rewrite skipn_all2 by lia. now rewrite app_nil_r.
  - destruct (Nat.ltb_spec i (List.length bytes)) as [Hi|Hi].
    + pose proof chunk_size_pos as Hc.
      rewrite IH by lia. rewrite <- app_assoc. f_equal.
      rewrite <- fromCharCode_app. f_equal.
      unfold subarray.
      transitivity (firstn chunk_size (skipn i bytes)
                    ++ skipn chunk_size (skipn i bytes));
        [|apply firstn_skipn].
      rewrite skipn_skipn. f_equal.
      * destruct (Nat.le_gt_cases (i + chunk_size) (List.length bytes)) as [Hle|Hgt].
        -- rewrite Nat.min_l by lia. f_equal. lia.
        -- rewrite Nat.min_r by lia.
           rewrite !firstn_all2; try reflexivity; rewrite length_skipn; lia.
      * f_equal. lia.
    + rewrite skipn_all2 by lia. now rewrite app_nil_r.
Qed.

Lemma binary_string_spec bytes :
  binary_string bytes = string_of_list_ascii (fromCharCode bytes).
Proof.
  unfold binary_string. now rewrite binary_loop_spec by lia.
Qed.

Lemma charCodes_fromCharCode bytes :
  Forall byte_range bytes ->
  charCodes (string_of_list_ascii (fromCharCode bytes)) = bytes.
Proof.
  unfold charCodes. rewrite list_ascii_of_string_of_list_ascii.
  induction 1 as [|b bytes Hb _ IH]; cbn [fromCharCode map].
  - reflexivity.
  - unfold fromCharCode in IH. rewrite IH. f_equal.
    unfold byte_range in Hb.
    rewrite N_ascii_embedding by lia. lia.
Qed.

Lemma int16_bytes_range s : Forall byte_range (int16_bytes s).
Proof.
  unfold int16_bytes, to_uint16, byte_range.
  repeat apply Forall_cons; try apply Forall_nil; divlia.
Qed.

Lemma Uint8Array_range samples :
  Forall byte_range (Uint8Array_of_Int16Array samples).
Proof.
  induction samples as [|s samples IH]; cbn [Uint8Array_of_Int16Array flat_map].
  - constructor.
  - apply Forall_app. split; [apply int16_bytes_range | exact IH].
Qed.

Lemma to_int16_bytes s :
  int16_range s ->
  to_int16 (to_uint16 s mod 256 + 256 * (to_uint16 s / 256)) = s.
Proof.
  unfold int16_range, to_int16, to_uint16. intro Hs.
  destruct (Z.ltb_spec (s mod 65536 mod 256 + 256 * (s mod 65536 / 256)) 32768);
    divlia.
Qed.

(** Reading the buffer of an [Int16Array] as bytes and as 16-bit samples
    again gives the samples back. *)
Lemma Int16Array_view samples :
  Forall int16_range samples ->
  Int16Array_of_Uint8Array (Uint8Array_of_Int16Array samples) = Some samples.
Proof.
  induction 1 as [|s samples Hs _ IH].
  - reflexivity.
  - cbn [Uint8Array_of_Int16Array flat_map int16_bytes app
         Int16Array_of_Uint8Array].
    unfold Uint8Array_of_Int16Array in IH. rewrite IH.
    cbn [option_map]. now rewrite to_int16_bytes.
Qed.

Lemma decode_encode_audio samples :
  Forall int16_range samples ->
  decode_audio (encode_audio samples) = Some samples.
Proof.
  intro H. unfold decode_audio, encode_audio.
  rewrite atob_btoa, binary_string_spec.
  rewrite charCodes_fromCharCode by apply Uint8Array_range.
  now apply Int16Array_view.
Qed.

End Pcm.

(* ===================================================================== *)
(** * Properties of the jitter playback path *)
(* ===================================================================== *)

Section Jitter.

Local Open Scope Q_scope.

Lemma Qltb_true x y : Qltb x y = true <-> x < y.
Proof.
  unfold Qltb. destruct (Qcompare_spec x y) as [H|H|H]; split; intro E;
    try discriminate; try reflexivity; try assumption; lra.
Qed.

Lemma Qltb_false x y : Qltb x y = false <-> y <= x.
Proof.
  unfold Qltb. destruct (Qcompare_spec x y) as [H|H|H]; split; intro E;
    try discriminate; try reflexivity; lra.
Qed.

Lemma createBuffer_chunk (float32 : list Q) :
  float32 <> [] -> createBuffer (List.length float32) = Some (duration float32).
Proof.
  intro H. destruct float32 as [|x l]; [contradiction|reflexivity].
Qed.

Lemma duration_pos (float32 : list Q) : float32 <> [] -> 0 < duration float32.
Proof.
  intro H. destruct float32 as [|x l]; [contradiction|].
  unfold duration, Qlt. cbn [Qnum Qden List.length]. lia.
Qed.

Variable c : card.
Variable float32 : list Q.
Variable now : Q.
Hypothesis Hplay : can_play c.
Hypothesis Hchunk : float32 <> [].

(** The cursor is behind the clock: the chunk starts [minLookahead]
    after [now]. *)
Lemma playScheduled_behind :
  _nextPlayTime c < now ->
  _playScheduled float32 now c =
  Step (set_nextPlayTime (now + minLookahead + duration float32) c)
       [Play (now + minLookahead) float32] (Done tt).
Proof.
  intro Hlt. destruct Hplay as [Hctx Hgain].
  assert (H2 : Qltb maxLookahead (now + minLookahead - now) = false)
    by (apply Qltb_false; unfold maxLookahead, minLookahead; lra).
  apply Qltb_true in Hlt.
  unfold _playScheduled. destruct c. cbn in *.
  destruct _playbackContext0; [|discriminate].
  destruct _gainNode0; [|discriminate].
  rewrite (createBuffer_chunk float32 Hchunk). cbn.
  rewrite Hlt. cbn. rewrite H2. reflexivity.
Qed.

(** The cursor is ahead of the clock by no more than [maxLookahead]: the
    chunk starts at the cursor. *)
Lemma playScheduled_ahead :
  now <= _nextPlayTime c -> _nextPlayTime c - now <= maxLookahead ->
  _playScheduled float32 now c =
  Step (set_nextPlayTime (_nextPlayTime c + duration float32) c)
       [Play (_nextPlayTime c) float32] (Done tt).
Proof.
  intros Hle Hmax. destruct Hplay as [Hctx Hgain].
  apply Qltb_false in Hle. apply Qltb_false in Hmax.
  unfold _playScheduled. destruct c. cbn in *.
  destruct _playbackContext0; [|discriminate].
  destruct _gainNode0; [|discriminate].
  rewrite (createBuffer_chunk float32 Hchunk). cbn.
  rewrite Hle. cbn. rewrite Hmax. reflexivity.
Qed.

(** The cursor is more than [maxLookahead] ahead of the clock: the chunk
    is dropped. *)
Lemma playScheduled_drop :
  maxLookahead < _nextPlayTime c - now ->
  _playScheduled float32 now c =
  Step (set_nextPlayTime (now + resetLookahead)
          (set_chunksDropped (S (_chunksDropped c)) c))
       [] (Done tt).
Proof.
  intros Hmax. destruct Hplay as [Hctx Hgain].
  assert (Hle : Qltb (_nextPlayTime c) now = false)
    by (apply Qltb_false; unfold maxLookahead in Hmax; lra).
  apply Qltb_true in Hmax.
  unfold _playScheduled. destruct c. cbn in *.
  destruct _playbackContext0; [|discriminate].
  destruct _gainNode0; [|discriminate].
  rewrite (createBuffer_chunk float32 Hchunk). cbn.
  rewrite Hle. cbn. rewrite Hmax. reflexivity.
Qed.

Lemma can_play_set_nextPlayTime v : can_play (set_nextPlayTime v c).
Proof. destruct c; exact Hplay. Qed.

Lemma can_play_set_chunksDropped v : can_play (set_chunksDropped v c).
Proof. destruct c; exact Hplay. Qed.

End Jitter.

Section JitterFacts.

Local Open Scope Q_scope.

Lemma nextPlayTime_set v c : _nextPlayTime (set_nextPlayTime v c) = v.
Proof. now destruct c. Qed.

Lemma chunksDropped_set_nextPlayTime v c :
  _chunksDropped (set_nextPlayTime v c) = _chunksDropped c.
Proof. now destruct c. Qed.

Lemma chunksDropped_set v c : _chunksDropped (set_chunksDropped v c) = v.
Proof. now destruct c. Qed.

(** The three cases cover every playable chunk. *)
Lemma cursor_cases (c : card) (now : Q) :
  _nextPlayTime c < now
  \/ (now <= _nextPlayTime c /\ _nextPlayTime c - now <= maxLookahead)
  \/ maxLookahead < _nextPlayTime c - now.
Proof.
  destruct (Qlt_le_dec (_nextPlayTime c) now) as [H|H]; [now left|right].
  destruct (Qlt_le_dec maxLookahead (_nextPlayTime c - now)) as [H'|H'];
    [now right|now left].
Qed.

(** Handling a chunk leaves the playback graph as it is. *)
Lemma can_play_playScheduled c float32 now :
  can_play c -> float32 <> [] ->
  can_play (now_state (_playScheduled float32 now c)).
Proof.
  intros Hp Hf.
  destruct (cursor_cases c now) as [H|[[H H']|H]].
  - rewrite playScheduled_behind by assumption.
    now apply can_play_set_nextPlayTime.
  - rewrite playScheduled_ahead by assumption.
    now apply can_play_set_nextPlayTime.
  - rewrite playScheduled_drop by assumption.
    now apply can_play_set_nextPlayTime, can_play_set_chunksDropped.
Qed.

(** What a playable chunk leaves behind: it starts within the lookahead
    window and the cursor is its end, or it is dropped. *)
Lemma playScheduled_outcome c float32 now :
  can_play c -> float32 <> [] ->
  let s := _playScheduled float32 now c in
  (exists when,
      now_effects s = [Play when float32]
      /\ now <= when /\ when - now <= maxLookahead
      /\ _nextPlayTime (now_state s) = when + duration float32
      /\ _chunksDropped (now_state s) = _chunksDropped c
      /\ ~ maxLookahead < _nextPlayTime c - now)
  \/ (now_effects s = []
      /\ _nextPlayTime (now_state s) = now + resetLookahead
      /\ _chunksDropped (now_state s) = S (_chunksDropped c)
      /\ maxLookahead < _nextPlayTime c - now).
Proof.
  intros Hp Hf s. subst s.
  destruct (cursor_cases c now) as [H|[[H H']|H]].
  - left. exists (now + minLookahead).
    rewrite playScheduled_behind by assumption. cbn [now_effects now_state].
    rewrite nextPlayTime_set, chunksDropped_set_nextPlayTime.
    unfold minLookahead, maxLookahead in *. repeat split; try lra.
  - left. exists (_nextPlayTime c).
    rewrite playScheduled_ahead by assumption. cbn [now_effects now_state].
    rewrite nextPlayTime_set, chunksDropped_set_nextPlayTime.
    repeat split; try lra; try assumption.
  - right.
    rewrite playScheduled_drop by assumption. cbn [now_effects now_state].
    rewrite nextPlayTime_set, chunksDropped_set_nextPlayTime, chunksDropped_set.
    repeat split; assumption.
Qed.

Lemma back_to_back_starts d p k : back_to_back d (starts_from d p k).
Proof.
  revert p. induction k as [|k IH]; intro p; cbn [starts_from]; [exact I|].
  destruct k as [|k]; cbn [starts_from back_to_back]; [exact I|].
  split; [reflexivity|]. apply (IH (p + d)).
Qed.

Lemma length_starts d p k : List.length (starts_from d p k) = k.
Proof.
  revert p. induction k as [|k IH]; intro p; cbn [starts_from List.length];
    [reflexivity|now rewrite IH].
Qed.

(** Chunks one chunk duration apart, the first arriving while the cursor
    is ahead by no more than [maxLookahead]: each starts where the
    previous one ends and none is dropped. *)
Lemma regular_ahead float32 (Hf : float32 <> []) : forall arrivals c,
  can_play c ->
  spaced (duration float32) arrivals ->
  (forall n0, hd_error arrivals = Some n0 ->
     n0 <= _nextPlayTime c /\ _nextPlayTime c - n0 <= maxLookahead) ->
  scheduled (feed_log (arriving float32 arrivals) c)
  = starts_from (duration float32) (_nextPlayTime c) (List.length arrivals)
  /\ _chunksDropped (feed (arriving float32 arrivals) c) = _chunksDropped c.
Proof.
  induction arrivals as [|n0 rest IH]; intros c Hp Hs Hhd.
  - split; reflexivity.
  - destruct (Hhd n0 eq_refl) as [Hle Hmax].
    cbn [arriving map feed_log feed scheduled flat_map snd List.length
         starts_from].
    rewrite playScheduled_ahead by assumption.
    cbn [now_effects now_state play_times app].
    fold (arriving float32 rest).
    fold (scheduled (feed_log (arriving float32 rest)
            (set_nextPlayTime (_nextPlayTime c + duration float32) c))).
    destruct (IH (set_nextPlayTime (_nextPlayTime c + duration float32) c))
      as [IH1 IH2].
    + now apply can_play_set_nextPlayTime.
    + destruct rest; [exact I|apply Hs].
    + intros n1 Hn1. rewrite nextPlayTime_set.
      destruct rest as [|n1' rest']; [discriminate|].
      injection Hn1 as ->. destruct Hs as [Hs _]. split; lra.
    + rewrite IH1, IH2, nextPlayTime_set, chunksDropped_set_nextPlayTime.
      split; reflexivity.
Qed.

(** The same, whatever the cursor is behind the first arrival. *)
Lemma regular_feed float32 (Hf : float32 <> []) arrivals c :
  can_play c ->
  spaced (duration float32) arrivals ->
  (forall n0, hd_error arrivals = Some n0 ->
     _nextPlayTime c - n0 <= maxLookahead) ->
  (exists p, scheduled (feed_log (arriving float32 arrivals) c)
             = starts_from (duration float32) p (List.length arrivals))
  /\ _chunksDropped (feed (arriving float32 arrivals) c) = _chunksDropped c.
Proof.
  intros Hp Hs Hhd.
  destruct arrivals as [|n0 rest].
  - split; [exists 0|]; reflexivity.
  - specialize (Hhd n0 eq_refl).
    destruct (Qlt_le_dec (_nextPlayTime c) n0) as [Hlt|Hle].
    + cbn [arriving map feed_log feed scheduled flat_map snd List.length
           starts_from].
      rewrite playScheduled_behind by assumption.
      cbn [now_effects now_state play_times app].
      fold (arriving float32 rest).
      set (c1 := set_nextPlayTime (n0 + minLookahead + duration float32) c).
      fold (scheduled (feed_log (arriving float32 rest) c1)).
      destruct (regular_ahead float32 Hf rest c1) as [H1 H2].
      * now apply can_play_set_nextPlayTime.
      * destruct rest; [exact I|apply Hs].
      * intros n1 Hn1. unfold c1. rewrite nextPlayTime_set.
        destruct rest as [|n1' rest']; [discriminate|].
        injection Hn1 as ->. destruct Hs as [Hs _].
        unfold minLookahead, maxLookahead. split; lra.
      * rewrite H1, H2. unfold c1.
        rewrite nextPlayTime_set, chunksDropped_set_nextPlayTime.
        split; [exists (n0 + minLookahead)|]; reflexivity.
    + destruct (regular_ahead float32 Hf (n0 :: rest) c Hp Hs) as [H1 H2].
      * intros n Hn. injection Hn as <-. split; assumption.
      * split; [exists (_nextPlayTime c)|]; assumption.
Qed.

End JitterFacts.

Section JitterClaims.

Local Open Scope Q_scope.

(** Nothing is played without the playback graph or for an empty chunk. *)
Lemma playScheduled_idle c float32 now :
  ~ can_play c \/ float32 = [] ->
  _playScheduled float32 now c = Step c [] (Done tt).
Proof.
  unfold can_play, _playScheduled. intro H. destruct c. cbn in *.
  destruct _playbackContext0, _gainNode0; cbn in *; try reflexivity.
  destruct H as [H| ->]; [|reflexivity].
  exfalso. apply H. split; reflexivity.
Qed.

Lemma can_play_dec c : {can_play c} + {~ can_play c}.
Proof.
  unfold can_play.
  destruct (is_object (_playbackContext c)), (is_object (_gainNode c));
    try (left; split; reflexivity); right; intros [H1 H2]; discriminate.
Qed.

Lemma play_within_window c float32 now when samples :
  In (Play when samples) (now_effects (_playScheduled float32 now c)) ->
  now <= when /\ when <= now + maxLookahead.
Proof.
  destruct (can_play_dec c) as [Hp|Hp];
    [destruct float32 as [|x l] eqn:Ef|].
  - rewrite playScheduled_idle by (now right). intros [].
  - rewrite <- Ef in *.
    assert (Hf : float32 <> []) by (rewrite Ef; discriminate).
    destruct (playScheduled_outcome c float32 now Hp Hf)
      as [[w [He [H1 [H2 _]]]]|[He _]]; rewrite He.
    + intros [E|[]]. injection E as <- _. split; lra.
    + intros [].
  - rewrite playScheduled_idle by (now left). intros [].
Qed.

End JitterClaims.









(* ===================================================================== *)
(** * Running tasks *)
(* ===================================================================== *)

Lemma run_prefix {A} (o : oracle) (c : card) (es es' : list effect)
      (t : task A) :
  run o (Step c (es ++ es') t)
  = let '(c2, es2, a) := run o (Step c es' t) in (c2, es ++ es2, a).
Proof.
  destruct t as [a|X r k]; cbn [run].
  - reflexivity.
  - destruct (run o (k (o X r) c)) as [[c2 es2] a].
    now rewrite app_assoc.
Qed.

(** Running [s] and then [f] is running them one after the other. *)
Lemma run_step_bind {A B} (o : oracle) (f : A -> async B) :
  forall s : step A,
    run o (step_bind s f)
    = let '(c1, es1, a) := run o s in
      let '(c2, es2, b) := run o (f a c1) in
      (c2, es1 ++ es2, b).
Proof.
  fix IH 1. intros [c es [a|X r k]]; cbn [step_bind run].
  - destruct (f a c) as [c' es' t'] eqn:E.
    apply (run_prefix o c' es es' t').
  - rewrite (IH (k (o X r) c)).
    destruct (run o (k (o X r) c)) as [[c1 es1] a].
    destruct (run o (f a c1)) as [[c2 es2] b].
    now rewrite app_assoc.
Qed.

Lemma run_bind {A B} (o : oracle) (m : async A) (f : A -> async B) (c : card) :
  run o (bind m f c)
  = let '(c1, es1, a) := run o (m c) in
    let '(c2, es2, b) := run o (f a c1) in
    (c2, es1 ++ es2, b).
Proof. apply run_step_bind. Qed.

(* ===================================================================== *)
(** * Event handlers *)
(* ===================================================================== *)

Section Handlers.

Local Open Scope string_scope.
Local Open Scope list_scope.

(** An audio event is discarded unless a call is active on the device it
    names and the playback context exists. *)
Lemma handleAudioEvent_discard (c : card) (ev : event audio_data) (now : Q) :
  ev = None
  \/ _activeDeviceInfo c = None
  \/ (exists data d, ev = Some data /\ _activeDeviceInfo c = Some d
                     /\ audio_device_id data <> device_id d)
  \/ _active c = false
  \/ _playbackContext c = None ->
  _handleAudioEvent ev now c = Step c [] (Done tt).
Proof.
  unfold _handleAudioEvent. destruct c; cbn.
  intros [H|[H|[H|[H|H]]]]; try (rewrite H; clear H); cbn.
  - reflexivity.
  - now destruct ev.
  - destruct H as [data [d [H1 [H2 Hne]]]]. rewrite H1, H2.
    apply String.eqb_neq in Hne. now rewrite Hne.
  - destruct ev as [data|], _activeDeviceInfo0 as [d|]; try reflexivity.
    now destruct (audio_device_id data =? device_id d).
  - destruct ev as [data|], _activeDeviceInfo0 as [d|]; try reflexivity.
    destruct (audio_device_id data =? device_id d); cbn;
      [now rewrite orb_true_r|reflexivity].
Qed.

(** An audio event for the active device, while the call is active: the
    chunk is counted, decoded and handed to [_playScheduled]. *)
Lemma handleAudioEvent_plays (c : card) (d : device) (a : string)
      (int16 : list Z) (now : Q) :
  _activeDeviceInfo c = Some d -> _active c = true ->
  is_object (_playbackContext c) = true ->
  decode_audio a = Some int16 ->
  let c1 := set_chunksReceived (S (_chunksReceived c)) c in
  let s := _handleAudioEvent
             (Some {| audio_device_id := device_id d; audio := a |}) now c in
  now_state s = now_state (_playScheduled (to_float32 int16) now c1)
  /\ exists stats,
       now_effects s
       = stats ++ now_effects (_playScheduled (to_float32 int16) now c1).
Proof.
  intros Hd Ha Hctx Hdec c1 s. subst c1 s.
  unfold _handleAudioEvent.
  destruct c; cbn -[_playScheduled Nat.modulo] in Hd, Ha, Hctx |- *.
  subst. rewrite String.eqb_refl, Hctx, Hdec. cbn -[_playScheduled Nat.modulo].
  destruct (Nat.modulo (S _chunksReceived0) 50 =? 0)%nat;
    cbn -[_playScheduled Nat.modulo];
    match goal with
    | |- context [_playScheduled ?f ?n ?st] =>
        destruct (_playScheduled f n st) as [c' es' t']
    end; cbn; split; try reflexivity.
  - now exists [UpdateStats _chunksSent0 (S _chunksReceived0)].
  - now exists [].
Qed.

Lemma handleStateEvent_streaming (c : card) (d : device) :
  _activeDeviceInfo c = Some d ->
  _handleStateEvent
    (Some {| state_device_id := device_id d; state := "streaming" |}) c
  = Step (set_active true (set_ringing false c)) [Render] (Done tt).
Proof.
  intro Hd. unfold _handleStateEvent. destruct c; cbn in Hd |- *.
  subst. now rewrite String.eqb_refl.
Qed.

Lemma to_float32_nonempty int16 : int16 <> [] -> to_float32 int16 <> [].
Proof. destruct int16; [contradiction|discriminate]. Qed.

End Handlers.



(* ===================================================================== *)
(** * Hanging up *)
(* ===================================================================== *)

Section Hangup.

Local Open Scope string_scope.
Local Open Scope list_scope.

Variable o : oracle.

Lemma run_cleanup (c : card) :
  run o (_cleanup c) = (cleaned c, released c, tt).
Proof.
  unfold _cleanup, released, cleaned. destruct c. cbn.
  destruct _unsubscribeAudio0, _unsubscribeState0, _mediaStream0,
    _workletNode0, _source0, _audioContext0, _playbackContext0;
    reflexivity.
Qed.

(** [_hangup], run to its end: the stop request, the releases of
    [_cleanup], and the flags cleared. *)
Lemma run_hangup (c : card) (d : device) :
  _hass c = true -> _activeDeviceInfo c = Some d ->
  run o (_hangup c)
  = (set_activeDeviceInfo None
       (set_stopping false (set_ringing false (set_active false
          (cleaned (set_stopping true c))))),
     Render :: Sent (stop (device_id d)) :: released c ++ [Render],
     tt).
Proof.
  intros Hh Hd. unfold _hangup.
  rewrite run_bind. cbn [modify run].
  rewrite run_bind. cbn [_render emit run].
  rewrite run_bind.
  assert (Hstop : run o
            (try_catch
               (c0 <- get ;;
                match _activeDeviceInfo c0 with
                | Some d0 => _ <-? hass_promise (stop (device_id d0)) ;; ok tt
                | None => ok tt
                end) (fun _ : error => ret tt) (set_stopping true c))
          = (set_stopping true c, [Sent (stop (device_id d))], tt)).
  { destruct c; cbn in Hh, Hd |- *. subst. cbn.
    destruct (o unit (stop (device_id d))); reflexivity. }
  rewrite Hstop. rewrite run_bind, run_cleanup.
  assert (Hrel : released (set_stopping true c) = released c)
    by now destruct c.
  rewrite Hrel. destruct c; reflexivity.
Qed.

Lemma handleStateEvent_disconnected (c : card) (d : device) :
  _activeDeviceInfo c = Some d ->
  _handleStateEvent
    (Some {| state_device_id := device_id d; state := "disconnected" |}) c
  = _hangup c.
Proof.
  intro Hd. unfold _handleStateEvent. unfold bind at 1. cbn [get step_bind].
  rewrite Hd. cbn [state_device_id state]. rewrite String.eqb_refl.
  cbn [negb String.eqb Ascii.eqb Bool.eqb].
  now destruct (_hangup c).
Qed.

Lemma handleBridgeStateEvent_disconnected (c : card) (d : device)
      (dest : string) :
  _activeDeviceInfo c = Some d ->
  _handleBridgeStateEvent
    (Some {| source_device_id := device_id d; dest_device_id := dest;
             bridge_state := "disconnected" |}) c
  = _hangup c.
Proof.
  intro Hd. unfold _handleBridgeStateEvent. unfold bind at 1.
  cbn [get step_bind]. rewrite Hd.
  cbn [source_device_id dest_device_id bridge_state].
  rewrite String.eqb_refl.
  cbn [negb andb String.eqb Ascii.eqb Bool.eqb].
  now destruct (_hangup c).
Qed.

End Hangup.

(** C5.  A "disconnected" state event for the active device, or a
    "disconnected" bridge state event for the active device and the selected
    destination, makes the card hang up.  Run to its end, the hang-up sends
    the stop request for the active device, calls every unsubscribe
    function the card holds, stops the media stream, disconnects the
    worklet and the source, closes both audio contexts, and leaves the
    card with no subscription and no audio resource, with the active,
    ringing and stopping flags clear and no active device: the status
    shown is "Ready" unless a start was in progress. *)
Theorem C5_disconnected_tears_down (c : card) (d : device) (o : oracle)
        (s : step unit) :
  _hass c = true -> _activeDeviceInfo c = Some d ->
  s = _handleStateEvent
        (Some {| state_device_id := device_id d;
                 state := "disconnected" |}) c
  \/ (exists dest,
        _selectedDestination c = Str dest
        /\ s = _handleBridgeStateEvent
                 (Some {| source_device_id := device_id d;
                          dest_device_id := dest;
                          bridge_state := "disconnected" |}) c) ->
  let c' := final o s in
  let tr := trace o s in
  In (Sent (stop (device_id d))) tr
  /\ (forall h, _unsubscribeAudio c = Some h -> In (Unsubscribe h) tr)
  /\ (forall h, _unsubscribeState c = Some h -> In (Unsubscribe h) tr)
  /\ (_mediaStream c <> None -> In StopTracks tr)
  /\ (_workletNode c <> None -> In DisconnectWorklet tr)
  /\ (_source c <> None -> In DisconnectSource tr)
  /\ (_audioContext c <> None -> In (Sent close_audioContext) tr)
  /\ (_playbackContext c <> None -> In (Sent close_playbackContext) tr)
  /\ _unsubscribeAudio c' = None /\ _unsubscribeState c' = None
  /\ _mediaStream c' = None /\ _workletNode c' = None /\ _source c' = None
  /\ _audioContext c' = None /\ _playbackContext c' = None
  /\ _gainNode c' = None
  /\ _active c' = false /\ _ringing c' = false /\ _stopping c' = false
  /\ _activeDeviceInfo c' = None
  /\ (_starting c = false -> statusText c' = "Ready"%string).
Proof.
  intros Hh Hd Hs c' tr.
  assert (E : s = _hangup c).
  { destruct Hs as [->|[dest [_ ->]]].
    - now apply handleStateEvent_disconnected.
    - now apply handleBridgeStateEvent_disconnected. }
  subst c' tr. unfold final, trace. rewrite E, (run_hangup o c d Hh Hd).
  clear E Hs s. cbn [fst snd]. unfold released.
  destruct c. cbn in Hh, Hd |- *. subst.
  repeat split; try reflexivity;
    try (intros h ->); try (intros ->);
    try (intro H;
         match type of H with
         | ?x <> None => destruct x; [clear H|contradiction]
         end);
    cbn [is_object]; repeat rewrite in_app_iff; cbn [In]; find_in.
Qed.

(** The endpoint disconnects during a call: the trace of the hang-up. *)
Lemma C5_disconnected_tears_down_witness :
  _hass streaming_card = true
  /\ _activeDeviceInfo streaming_card = Some kitchen
  /\ let s := _handleStateEvent
                (Some {| state_device_id := "abc123";
                         state := "disconnected" |}) streaming_card in
     In (Sent (stop "abc123")) (trace (hub Undefined) s)
     /\ statusText (final (hub Undefined) s) = "Ready"%string.
Proof.
  split; [reflexivity|]. split; [reflexivity|]. intro s.
  pose proof (C5_disconnected_tears_down streaming_card kitchen
                (hub Undefined) s eq_refl eq_refl (or_introl eq_refl)) as H.
  cbv zeta in H.
  destruct H as (H1 & _ & _ & _ & _ & _ & _ & _ & _ & _ & _ & _ & _ & _ & _
                 & _ & _ & _ & _ & _ & H21).
  split; [exact H1|exact (H21 eq_refl)].
Defined.

(* ===================================================================== *)
(** * Starting a bridge *)
(* ===================================================================== *)

Section Bridge.

Local Open Scope string_scope.
Local Open Scope list_scope.

Variable o : oracle.

(** [_getDeviceInfo] changes no field and sends nothing but the request
    for the device list. *)
Lemma run_getDeviceInfo (c : card) :
  exists es,
    run o (_getDeviceInfo c) = (c, es, sourceDevice o c)
    /\ Forall (fun e => is_bridge_request e = false) es.
Proof.
  unfold sourceDevice, _getDeviceInfo. destruct c. cbn.
  destruct _hass0; cbn.
  - destruct (o _ list_devices) as [e|[ds|]]; cbn.
    + eexists. split; [reflexivity|]. repeat constructor.
    + destruct config0; cbn; eexists; (split; [reflexivity|]);
        repeat constructor.
    + eexists. split; [reflexivity|]. repeat constructor.
  - eexists. split; [reflexivity|]. repeat constructor.
Qed.

Lemma run_bridge_unavailable (c : card) :
  usable (sourceDevice o c) = false \/ usable (destDevice c) = false ->
  exists es msg,
    run o (_bridge c) = (c, es ++ [ShowError msg], tt)
    /\ Forall (fun e => is_bridge_request e = false) es
    /\ (msg = "Source device IP not available"
        \/ msg = "Destination device not selected or IP not available").
Proof.
  intro H. unfold _bridge. rewrite run_bind.
  destruct (run_getDeviceInfo c) as [es [E Hes]]. rewrite E.
  exists es.
  destruct (sourceDevice o c) as [src|]; cbn [usable] in H.
  - destruct (truthy (host src)) eqn:Hsrc.
    + destruct H as [H|H]; [discriminate|].
      rewrite run_bind. cbn [get run]. fold (destDevice c).
      destruct (destDevice c) as [dst|]; cbn [usable] in H.
      * rewrite H. cbn. eexists. split; [reflexivity|]. split; auto.
      * cbn. eexists. split; [reflexivity|]. split; auto.
    + cbn. eexists. split; [reflexivity|]. split; auto.
  - cbn. eexists. split; [reflexivity|]. split; auto.
Qed.

End Bridge.

(** C6.  When [_bridge] runs and the source device that [_getDeviceInfo]
    resolves is missing or has no host, or the selected destination is not
    among the available devices or has no host, the card shows an error
    naming the endpoint that is unavailable, sends no bridge request, and
    leaves every field as it was. *)
Theorem C6_bridge_needs_both_hosts (c : card) (o : oracle) :
  usable (sourceDevice o c) = false \/ usable (destDevice c) = false ->
  (exists msg,
      In (ShowError msg) (trace o (_bridge c))
      /\ (msg = "Source device IP not available"%string
          \/ msg = "Destination device not selected or IP not available"%string))
  /\ (forall si sh di dh, ~ In (Sent (bridge si sh di dh)) (trace o (_bridge c)))
  /\ final o (_bridge c) = c.
Proof.
  intro H. destruct (run_bridge_unavailable o c H) as [es [msg [E [Hes Hmsg]]]].
  unfold trace, final. rewrite E. cbn [fst snd]. repeat split.
  - exists msg. split; [|exact Hmsg]. apply in_or_app. right. now left.
  - intros si sh di dh Hin. apply in_app_or in Hin. destruct Hin as [Hin|Hin].
    + rewrite Forall_forall in Hes. specialize (Hes _ Hin). discriminate Hes.
    + destruct Hin as [Hin|[]]. discriminate Hin.
Qed.

(** No destination is selected: the bridge is refused. *)
Lemma C6_bridge_needs_both_hosts_witness :
  usable (destDevice (configured ptmp_config)) = false
  /\ trace (hub Undefined) (_bridge (configured ptmp_config))
     = [Sent list_devices;
        ShowError "Destination device not selected or IP not available"]
  /\ final (hub Undefined) (_bridge (configured ptmp_config))
     = configured ptmp_config.
Proof.
  split; [reflexivity|]. split; [reflexivity|].
  apply (C6_bridge_needs_both_hosts (configured ptmp_config) (hub Undefined)).
  right. reflexivity.
Defined.



(* ===================================================================== *)
(** * Destinations and foreign events *)
(* ===================================================================== *)

Section Destinations.

Local Open Scope string_scope.
Local Open Scope list_scope.

(** What [_loadAvailableDevices] stores when the hub answers with a
    device list: the entries whose [device_id] is not the configured
    id. *)
Lemma loadAvailableDevices_filters (o : oracle) (c : card)
      (devices : list device) :
  _hass c = true -> o _ list_devices = inr (Some devices) ->
  _availableDevices (final o (_loadAvailableDevices c))
  = filter (fun d => negb (strict_eq (Str (device_id d))
                                     (_getConfigDeviceId c))) devices.
Proof.
  intros Hh Ho. unfold final, _loadAvailableDevices.
  destruct c. cbn in Hh |- *. subst. cbn. rewrite Ho. reflexivity.
Qed.

Lemma loadAvailableDevices_excludes_id (o : oracle) (c : card)
      (devices : list device) (d : device) :
  _hass c = true -> o _ list_devices = inr (Some devices) ->
  In d (_availableDevices (final o (_loadAvailableDevices c))) ->
  Str (device_id d) <> _getConfigDeviceId c.
Proof.
  intros Hh Ho Hin. rewrite (loadAvailableDevices_filters o c devices Hh Ho) in Hin.
  apply filter_In in Hin. destruct Hin as [_ Hne].
  intro E. rewrite <- E in Hne. cbn in Hne.
  now rewrite String.eqb_refl in Hne.
Qed.

Lemma handleStateEvent_ignored (c : card) (ev : event state_data) :
  ev = None
  \/ _activeDeviceInfo c = None
  \/ (exists data d, ev = Some data /\ _activeDeviceInfo c = Some d
                     /\ state_device_id data <> device_id d) ->
  _handleStateEvent ev c = Step c [] (Done tt).
Proof.
  unfold _handleStateEvent. destruct c; cbn.
  intros [H|[H|H]]; try (rewrite H; clear H); cbn.
  - reflexivity.
  - now destruct ev.
  - destruct H as [data [d [H1 [H2 Hne]]]]. rewrite H1, H2.
    apply String.eqb_neq in Hne. now rewrite Hne.
Qed.

Lemma handleBridgeStateEvent_ignored (c : card) (ev : event bridge_data) :
  ev = None
  \/ _activeDeviceInfo c = None
  \/ (exists data d, ev = Some data /\ _activeDeviceInfo c = Some d
                     /\ source_device_id data <> device_id d
                     /\ Str (dest_device_id data) <> _selectedDestination c) ->
  _handleBridgeStateEvent ev c = Step c [] (Done tt).
Proof.
  unfold _handleBridgeStateEvent. destruct c; cbn.
  intros [H|[H|H]]; try (rewrite H; clear H); cbn.
  - reflexivity.
  - now destruct ev.
  - destruct H as [data [d [H1 [H2 [Hsrc Hdst]]]]]. rewrite H1, H2.
    apply String.eqb_neq in Hsrc. rewrite Hsrc.
    destruct _selectedDestination0 as [| |t]; cbn; try reflexivity.
    assert (E : (dest_device_id data =? t) = false)
      by (apply String.eqb_neq; cbn in Hdst; congruence).
    now rewrite E.
Qed.

End Destinations.

(** C9 at the failing input.  The card is configured with the ESPHome id of
    the kitchen panel, which [_getDeviceInfo] resolves to the kitchen panel;
    the list of destinations it loads still holds the kitchen panel, and
    once that entry is selected a press of the button asks the hub to
    bridge the kitchen panel to itself. *)
Theorem C9_own_device_offered :
  let c := configured ptmp_config_by_name in
  sourceDevice (hub Undefined) c = Some kitchen
  /\ In kitchen (_availableDevices c)
  /\ trace (hub Undefined)
       (_toggle false
          (final (hub Undefined) (destination_onchange "abc123" c)))
     = [Sent list_devices; Render; ShowError "";
        Sent (bridge "abc123" (Str "192.168.1.20")
                     "abc123" (Str "192.168.1.20"));
        Sent (subscribeEvents "intercom_bridge_state"); Render].
Proof.
  cbv zeta. split; [reflexivity|]. split; [now left|reflexivity].
Qed.




(* ===================================================================== *)
(** * The audio payload *)
(* ===================================================================== *)

Lemma sendAudio_sends (c : card) (d : device) (samples : list Z) :
  _activeDeviceInfo c = Some d -> _active c = true -> _hass c = true ->
  In (SendAudio (device_id d) (encode_audio samples))
     (now_effects (_sendAudio samples c)).
Proof.
  intros Hd Ha Hh. unfold _sendAudio.
  destruct c; cbn -[encode_audio Nat.modulo] in Hd, Ha, Hh |- *. subst.
  cbn -[encode_audio Nat.modulo].
  destruct (Nat.modulo (S _chunksSent0) 25 =? 0)%nat;
    cbn -[encode_audio]; now left.
Qed.

Lemma payload_bytes (samples : list Z) :
  option_map charCodes (atob (encode_audio samples))
  = Some (Uint8Array_of_Int16Array samples).
Proof.
  unfold encode_audio. rewrite atob_btoa, binary_string_spec.
  cbn [option_map]. f_equal.
  apply charCodes_fromCharCode, Uint8Array_range.
Qed.

(** C7.  The [audio] field of the message [_sendAudio] sends is the base64
    text of the samples' bytes, two per sample, low byte first; decoding
    it as [_handleAudioEvent] does ([atob], char codes to bytes, bytes to
    16-bit samples) gives exactly the samples that were sent. *)
Theorem C7_audio_roundtrip (samples : list Z) :
  Forall int16_range samples ->
  decode_audio (encode_audio samples) = Some samples
  /\ option_map charCodes (atob (encode_audio samples))
     = Some (flat_map (fun s => [s mod 65536 mod 256; s mod 65536 / 256])
                      samples)
  /\ forall c d,
       _activeDeviceInfo c = Some d -> _active c = true -> _hass c = true ->
       In (SendAudio (device_id d) (encode_audio samples))
          (now_effects (_sendAudio samples c)).
Proof.
  intro H. split; [|split].
  - now apply decode_encode_audio.
  - apply payload_bytes.
  - intros c d. apply sendAudio_sends.
Qed.

(** Three samples, one of them negative, sent during a call. *)
Lemma C7_audio_roundtrip_witness :
  Forall int16_range [1; -1; 256]
  /\ encode_audio [1; -1; 256] = "AQD//wAB"%string
  /\ decode_audio (encode_audio [1; -1; 256]) = Some [1; -1; 256]
  /\ In (SendAudio "abc123" (encode_audio [1; -1; 256]))
        (now_effects (_sendAudio [1; -1; 256] streaming_card)).
Proof.
  assert (H : Forall int16_range [1; -1; 256])
    by (repeat constructor; unfold int16_range; lia).
  destruct (C7_audio_roundtrip [1; -1; 256] H) as [H1 [_ H3]].
  split; [exact H|]. split; [reflexivity|]. split; [exact H1|].
  apply (H3 streaming_card kitchen); reflexivity.
Defined.

(** ** Examples of the encoding *)

Example encode_audio_ex : encode_audio [1; -1; 256] = "AQD//wAB"%string.
Proof. vm_compute. reflexivity. Qed.

Example decode_audio_odd_length : decode_audio "AQD/" = None.
Proof. vm_compute. reflexivity. Qed.

Example decode_audio_bad_character : decode_audio "A*D/" = None.
Proof. vm_compute. reflexivity. Qed.

Example atob_skips_whitespace :
  atob "AQ D/ /wAB" = atob "AQD//wAB".
Proof. vm_compute. reflexivity. Qed.

(* ===================================================================== *)
(** * Further properties of the jitter playback path *)
(* ===================================================================== *)

Lemma play_carries_chunk (c : card) (float32 : list Q) (now when : Q)
      (samples : list Q) :
  In (Play when samples) (now_effects (_playScheduled float32 now c)) ->
  samples = float32.
Proof.
  destruct (can_play_dec c) as [Hp|Hp];
    [destruct float32 as [|x l] eqn:Ef|].
  - rewrite playScheduled_idle by (now right). intros [].
  - rewrite <- Ef in *.
    assert (Hf : float32 <> []) by (rewrite Ef; discriminate).
    destruct (playScheduled_outcome c float32 now Hp Hf)
      as [[w [He _]]|[He _]]; rewrite He.
    + intros [E|[]]. now injection E.
    + intros [].
  - rewrite playScheduled_idle by (now left). intros [].
Qed.





(* ===================================================================== *)
(** * Further properties of the audio events *)
(* ===================================================================== *)

Lemma byte_pairs_ind (P : list Z -> Prop) :
  P [] -> (forall b, P [b]) ->
  (forall lo hi rest, P rest -> P (lo :: hi :: rest)) ->
  forall bytes, P bytes.
Proof.
  intros H0 H1 H2.
  assert (H : forall bytes, P bytes /\ forall b, P (b :: bytes)).
  { induction bytes as [|x bytes [IH0 IH1]]; split; auto. }
  intro bytes. apply H.
Qed.

Lemma charCodes_range (binary : string) : Forall byte_range (charCodes binary).
Proof.
  unfold charCodes. apply Forall_forall. intros b Hb.
  apply in_map_iff in Hb. destruct Hb as [ch [<- _]].
  pose proof (N_of_ascii_bound ch). unfold byte_range. lia.
Qed.

Lemma to_int16_range (lo hi : Z) :
  byte_range lo -> byte_range hi -> int16_range (to_int16 (lo + 256 * hi)).
Proof.
  unfold byte_range, int16_range, to_int16. intros Hlo Hhi.
  destruct (Z.ltb_spec (lo + 256 * hi) 32768); lia.
Qed.

Lemma Int16Array_range : forall bytes samples,
  Forall byte_range bytes ->
  Int16Array_of_Uint8Array bytes = Some samples ->
  Forall int16_range samples
  /\ List.length bytes = (2 * List.length samples)%nat.
Proof.
  induction bytes as [|b|lo hi rest IH] using byte_pairs_ind;
    intros samples Hb E; cbn [Int16Array_of_Uint8Array] in E.
  - injection E as <-. split; [constructor|reflexivity].
  - discriminate.
  - inversion Hb as [|? ? Hlo Hb']. inversion Hb' as [|? ? Hhi Hrest]. subst.
    destruct (Int16Array_of_Uint8Array rest) as [tl|]; [|discriminate].
    cbn [option_map] in E. injection E as <-.
    destruct (IH tl Hrest eq_refl) as [IH1 IH2]. split.
    + constructor; [now apply to_int16_range|exact IH1].
    + cbn [List.length]. lia.
Qed.

Lemma to_float32_range (int16 : list Z) :
  Forall int16_range int16 ->
  Forall (fun q => (-1 <= q)%Q /\ (q < 1)%Q) (to_float32 int16).
Proof.
  induction 1 as [|s l Hs _ IH]; cbn [to_float32 map]; constructor.
  - unfold int16_range in Hs. unfold Qle, Qlt. cbn [Qnum Qden]. lia.
  - exact IH.
Qed.

Lemma decode_audio_range (payload : string) (int16 : list Z) :
  decode_audio payload = Some int16 ->
  Forall int16_range int16
  /\ exists binary, atob payload = Some binary
       /\ String.length binary = (2 * List.length int16)%nat.
Proof.
  unfold decode_audio. intro E.
  destruct (atob payload) as [binary|]; [|discriminate].
  destruct (Int16Array_range (charCodes binary) int16
              (charCodes_range binary) E) as [H1 H2].
  split; [exact H1|].
  exists binary. split; [reflexivity|].
  rewrite <- H2. unfold charCodes. rewrite length_map.
  clear. induction binary as [|ch s IH]; cbn; [reflexivity|now rewrite IH].
Qed.

(** X3.  Whatever text an audio event carries, if it decodes at all it
    decodes to 16-bit samples, one for every two bytes of the base64
    payload, and the Float32 values made from them lie in [-1, 1). *)
Theorem decoded_samples_in_range (payload : string) (int16 : list Z) :
  decode_audio payload = Some int16 ->
  Forall int16_range int16
  /\ (exists binary, atob payload = Some binary
        /\ String.length binary = (2 * List.length int16)%nat)
  /\ Forall (fun q => (-1 <= q)%Q /\ (q < 1)%Q) (to_float32 int16).
Proof.
  intro E. destruct (decode_audio_range payload int16 E) as [H1 H2].
  split; [exact H1|]. split; [exact H2|now apply to_float32_range].
Qed.

Lemma decoded_samples_in_range_witness :
  decode_audio "AQD//wAB" = Some [1; -1; 256]
  /\ Forall int16_range [1; -1; 256].
Proof.
  split; [vm_compute; reflexivity|].
  apply (decoded_samples_in_range "AQD//wAB" [1; -1; 256]).
  vm_compute. reflexivity.
Defined.

(** What [_handleAudioEvent] does with an event: it ignores it, or it
    counts it and then plays what the payload decodes to. *)
Lemma handleAudioEvent_cases (c : card) (ev : event audio_data) (now : Q) :
  _handleAudioEvent ev now c = Step c [] (Done tt)
  \/ exists data d,
       ev = Some data /\ _activeDeviceInfo c = Some d
       /\ audio_device_id data = device_id d
       /\ _active c = true /\ is_object (_playbackContext c) = true
       /\ let c1 := set_chunksReceived (S (_chunksReceived c)) c in
          let stats := stats_refresh 50 (_chunksSent c)
                         (S (_chunksReceived c)) (S (_chunksReceived c)) in
          match decode_audio (audio data) with
          | None => _handleAudioEvent ev now c = Step c1 stats (Done tt)
          | Some int16 =>
              now_state (_handleAudioEvent ev now c)
              = now_state (_playScheduled (to_float32 int16) now c1)
              /\ now_effects (_handleAudioEvent ev now c)
                 = stats ++ now_effects
                              (_playScheduled (to_float32 int16) now c1)
          end.
Proof.
  destruct ev as [data|]; [|left; apply handleAudioEvent_discard; tauto].
  destruct (_activeDeviceInfo c) as [d|] eqn:Hd;
    [|left; apply handleAudioEvent_discard; tauto].
  destruct (String.eqb_spec (audio_device_id data) (device_id d)) as [Hid|Hid];
    [|left; apply handleAudioEvent_discard; right; right; left;
      exists data, d; auto].
  destruct (_active c) eqn:Ha;
    [|left; apply handleAudioEvent_discard; tauto].
  destruct (_playbackContext c) as [ctx|] eqn:Hctx;
    [|left; apply handleAudioEvent_discard; tauto].
  right. exists data, d. repeat split; try assumption.
  cbv zeta. unfold _handleAudioEvent, stats_refresh.
  destruct c; cbn -[_playScheduled Nat.modulo decode_audio] in Hd, Ha, Hctx |- *.
  subst. rewrite Hid, String.eqb_refl.
  cbn -[_playScheduled Nat.modulo decode_audio].
  destruct (decode_audio (audio data)) as [int16|];
    destruct (Nat.modulo (S _chunksReceived0) 50 =? 0)%nat;
    cbn -[_playScheduled Nat.modulo];
    try reflexivity;
    match goal with
    | |- context [_playScheduled ?f ?n ?st] =>
        destruct (_playScheduled f n st) as [c' es' t']
    end; cbn; split; reflexivity.
Qed.



(** X5.  An event for the active device whose payload does not decode
    (bad base64, or an odd number of bytes) is counted as received, but
    nothing is played and the schedule cursor and the drop counter stay as
    they are. *)
Theorem undecodable_audio_is_counted_not_played
        (c : card) (d : device) (payload : string) (now : Q) :
  _activeDeviceInfo c = Some d -> _active c = true ->
  is_object (_playbackContext c) = true ->
  decode_audio payload = None ->
  let s := _handleAudioEvent
             (Some {| audio_device_id := device_id d; audio := payload |})
             now c in
  _chunksReceived (now_state s) = S (_chunksReceived c)
  /\ (forall e, In e (now_effects s) -> is_play e = false)
  /\ _nextPlayTime (now_state s) = _nextPlayTime c
  /\ _chunksDropped (now_state s) = _chunksDropped c.
Proof.
  intros Hd Ha Hctx Hdec s. subst s.
  destruct (handleAudioEvent_cases c
              (Some {| audio_device_id := device_id d; audio := payload |}) now)
    as [E|[data [d' [Hev [_ [_ [_ [_ H]]]]]]]].
  - exfalso. revert E. unfold _handleAudioEvent.
    destruct c; cbn -[Nat.modulo decode_audio] in Hd, Ha, Hctx |- *. subst.
    rewrite String.eqb_refl, Hctx, Hdec. cbn -[Nat.modulo].
    destruct (Nat.modulo (S _chunksReceived0) 50 =? 0)%nat; cbn;
      intro E; injection E as E; clear - E; induction _chunksReceived0; lia.
  - injection Hev as <-. cbv zeta in H. cbn [audio] in H.
    rewrite Hdec in H. rewrite H. cbn [now_state now_effects].
    repeat split; try now destruct c.
    intros e He. unfold stats_refresh in He.
    destruct (Nat.modulo (S (_chunksReceived c)) 50 =? 0)%nat;
      [destruct He as [<-|[]]; reflexivity|destruct He].
Qed.

Lemma undecodable_audio_is_counted_not_played_witness :
  decode_audio "AQD/" = None
  /\ _chunksReceived
       (now_state
          (_handleAudioEvent
             (Some {| audio_device_id := "abc123"; audio := "AQD/" |})
             1 streaming_card)) = 1%nat.
Proof.
  split; [vm_compute; reflexivity|].
  apply (undecodable_audio_is_counted_not_played streaming_card kitchen
           "AQD/" 1%Q); reflexivity.
Defined.

Lemma sendAudio_idle (c : card) (samples : list Z) :
  _active c = false \/ _activeDeviceInfo c = None ->
  _sendAudio samples c = Step c [] (Done tt).
Proof.
  unfold _sendAudio. destruct c; cbn. intros [H|H]; rewrite H.
  - now destruct _activeDeviceInfo0.
  - reflexivity.
Qed.

Lemma sendAudio_active (c : card) (d : device) (samples : list Z) :
  _active c = true -> _activeDeviceInfo c = Some d -> _hass c = true ->
  _sendAudio samples c
  = Step (set_chunksSent (S (_chunksSent c)) c)
         (SendAudio (device_id d) (encode_audio samples)
            :: stats_refresh 25 (S (_chunksSent c)) (_chunksReceived c)
                 (S (_chunksSent c)))
         (Done tt).
Proof.
  intros Ha Hd Hh. unfold _sendAudio, stats_refresh.
  destruct c; cbn -[encode_audio Nat.modulo] in Ha, Hd, Hh |- *. subst.
  cbn -[encode_audio Nat.modulo].
  destruct (Nat.modulo (S _chunksSent0) 25 =? 0)%nat; reflexivity.
Qed.

Lemma capture_during_call (d : device) : forall chunks c,
  _active c = true -> _activeDeviceInfo c = Some d -> _hass c = true ->
  audio_messages (snd (capture chunks c))
  = map (fun samples => (device_id d, encode_audio samples)) chunks
  /\ _chunksSent (fst (capture chunks c))
     = (_chunksSent c + List.length chunks)%nat.
Proof.
  induction chunks as [|samples rest IH]; intros c Ha Hd Hh;
    cbn [capture map List.length].
  - split; [reflexivity|cbn; lia].
  - rewrite (sendAudio_active c d samples Ha Hd Hh).
    cbn [now_state now_effects].
    set (c1 := set_chunksSent (S (_chunksSent c)) c).
    destruct (IH c1) as [IH1 IH2]; try (now destruct c).
    destruct (capture rest c1) as [c' es]. cbn [fst snd] in *.
    split.
    + unfold audio_messages in *. cbn [flat_map app]. rewrite flat_map_app.
      rewrite IH1. unfold stats_refresh.
      destruct (Nat.modulo (S (_chunksSent c)) 25 =? 0)%nat; reflexivity.
    + rewrite IH2. unfold c1. destruct c; cbn. lia.
Qed.

(** X6.  [_sendAudio] sends nothing and counts nothing unless a call is
    active.  During a call the chunks the worklet posts are sent one
    message each, in order, to the active device; the sent counter grows by
    their number; and each payload decodes to the samples of its chunk. *)
Theorem captured_audio_is_sent_in_order (c : card) (chunks : list (list Z)) :
  (_active c = false \/ _activeDeviceInfo c = None ->
   capture chunks c = (c, []))
  /\ (forall d,
        _active c = true -> _activeDeviceInfo c = Some d -> _hass c = true ->
        audio_messages (snd (capture chunks c))
        = map (fun samples => (device_id d, encode_audio samples)) chunks
        /\ _chunksSent (fst (capture chunks c))
           = (_chunksSent c + List.length chunks)%nat
        /\ (Forall (Forall int16_range) chunks ->
            map (fun m => decode_audio (snd m))
                (audio_messages (snd (capture chunks c)))
            = map Some chunks)).
Proof.
  split.
  - intro H. induction chunks as [|samples rest IH]; cbn [capture];
      [reflexivity|].
    rewrite (sendAudio_idle c samples H). cbn [now_state now_effects].
    now rewrite IH.
  - intros d Ha Hd Hh.
    destruct (capture_during_call d chunks c Ha Hd Hh) as [H1 H2].
    split; [exact H1|]. split; [exact H2|].
    intro Hr. rewrite H1, map_map. cbn [snd].
    clear - Hr. induction Hr as [|s l Hs _ IH]; cbn [map]; [reflexivity|].
    now rewrite IH, decode_encode_audio.
Qed.

Lemma captured_audio_is_sent_in_order_witness :
  _active streaming_card = true
  /\ audio_messages (snd (capture [[1; -1]; [256]] streaming_card))
     = [("abc123", "AQD//w=="); ("abc123", "AAE=")].
Proof.
  split; [reflexivity|].
  destruct (proj2 (captured_audio_is_sent_in_order streaming_card
                     [[1; -1]; [256]]) kitchen eq_refl eq_refl eq_refl)
    as [H _].
  rewrite H. vm_compute. reflexivity.
Defined.

(** X7.  A "ringing" state event for the active device puts the card in
    the ringing state even in the middle of a call, and from then on audio
    events are discarded; a state event with any state other than
    "streaming", "ringing" and "disconnected" changes nothing. *)
Theorem state_events_ringing_and_unknown (c : card) (d : device) :
  _activeDeviceInfo c = Some d ->
  (let s := _handleStateEvent
              (Some {| state_device_id := device_id d; state := "ringing" |})
              c in
   s = Step (set_active false (set_ringing true c)) [Render] (Done tt)
   /\ forall ev now,
        _handleAudioEvent ev now (now_state s)
        = Step (now_state s) [] (Done tt))
  /\ (forall st,
        st <> "streaming" -> st <> "ringing" -> st <> "disconnected" ->
        _handleStateEvent
          (Some {| state_device_id := device_id d; state := st |}) c
        = Step c [] (Done tt)).
Proof.
  intro Hd. split.
  - assert (E : _handleStateEvent
                  (Some {| state_device_id := device_id d;
                           state := "ringing" |}) c
                = Step (set_active false (set_ringing true c)) [Render]
                       (Done tt)).
    { unfold _handleStateEvent. destruct c; cbn in Hd |- *. subst.
      now rewrite String.eqb_refl. }
    cbv zeta. rewrite E. split; [reflexivity|].
    intros ev now. apply handleAudioEvent_discard.
    right. right. right. left. now destruct c.
  - intros st H1 H2 H3. unfold _handleStateEvent.
    destruct c; cbn -[String.eqb] in Hd |- *. subst.
    rewrite String.eqb_refl.
    apply String.eqb_neq in H1, H2, H3.
    cbn [negb]. rewrite H1, H2, H3. reflexivity.
Qed.

Lemma state_events_ringing_and_unknown_witness :
  _activeDeviceInfo streaming_card = Some kitchen
  /\ _ringing
       (now_state
          (_handleStateEvent
             (Some {| state_device_id := "abc123"; state := "ringing" |})
             streaming_card)) = true
  /\ _handleStateEvent
       (Some {| state_device_id := "abc123"; state := "paused" |})
       streaming_card
     = Step streaming_card [] (Done tt).
Proof.
  split; [reflexivity|].
  destruct (state_events_ringing_and_unknown streaming_card kitchen eq_refl)
    as [[E _] H].
  split.
  - cbv zeta in E.
    change (device_id kitchen) with "abc123" in E. now rewrite E.
  - apply (H "paused"); discriminate.
Defined.

(* ===================================================================== *)
(** * Further properties of calls *)
(* ===================================================================== *)

Lemma bind_get {A} (f : card -> async A) (c : card) :
  bind get f c = f c c.
Proof. unfold bind, get. cbn [step_bind]. now destruct (f c c). Qed.

(** [_hangup], run to its end from any state. *)
Lemma run_hangup_any (o : oracle) (c : card) :
  run o (_hangup c)
  = (hung_up c, Render :: stop_sent c ++ released c ++ [Render], tt).
Proof.
  unfold _hangup, hung_up, stop_sent.
  rewrite run_bind. cbn [modify run].
  rewrite run_bind. cbn [_render emit run].
  rewrite run_bind.
  assert (Hstop : run o
            (try_catch
               (c0 <- get ;;
                match _activeDeviceInfo c0 with
                | Some d0 => _ <-? hass_promise (stop (device_id d0)) ;; ok tt
                | None => ok tt
                end) (fun _ : error => ret tt) (set_stopping true c))
          = (set_stopping true c,
             match _activeDeviceInfo c with
             | Some d => if _hass c then [Sent (stop (device_id d))] else []
             | None => []
             end, tt)).
  { destruct c; cbn. destruct _activeDeviceInfo0 as [d|]; [|reflexivity].
    destruct _hass0; cbn; [|reflexivity].
    destruct (o unit (stop (device_id d))); reflexivity. }
  rewrite Hstop. rewrite run_bind, run_cleanup.
  assert (Hrel : released (set_stopping true c) = released c)
    by now destruct c.
  rewrite Hrel. destruct c; cbn -[released]. reflexivity.
Qed.

Lemma released_cleaned (c : card) : released (cleaned c) = [].
Proof. now destruct c. Qed.

Lemma cleaned_twice (c : card) : cleaned (cleaned c) = cleaned c.
Proof. now destruct c. Qed.

(** X8.  [_cleanup] can be run again at no cost: a second run right after
    the first calls no unsubscribe function, stops and disconnects
    nothing, closes no context and leaves the fields as the first run left
    them. *)
Theorem cleanup_twice_releases_once (o : oracle) (c : card) :
  let c1 := final o (_cleanup c) in
  released_all c1
  /\ _nextPlayTime c1 = 0%Q /\ _chunksDropped c1 = 0%nat /\ _ringing c1 = false
  /\ trace o (_cleanup c1) = []
  /\ final o (_cleanup c1) = c1.
Proof.
  cbv zeta. unfold final, trace. rewrite run_cleanup. cbn [fst snd].
  rewrite run_cleanup. cbn [fst snd].
  rewrite released_cleaned, cleaned_twice.
  destruct c; cbn. unfold released_all; cbn. tauto.
Qed.

(** X9.  From any state and whatever the platform answers, [_hangup] ends
    with no subscription, no audio resource, no active device, the active,
    ringing and stopping flags clear and the jitter schedule reset; it asks
    the hub to stop exactly the device that was active (and nothing when
    there was none).  After it, audio, state and bridge events and captured
    audio have no effect, and a second hang-up only redraws the card. *)
Theorem hangup_leaves_nothing_behind (o : oracle) (c : card) :
  let c' := final o (_hangup c) in
  released_all c'
  /\ _active c' = false /\ _ringing c' = false /\ _stopping c' = false
  /\ _activeDeviceInfo c' = None
  /\ _nextPlayTime c' = 0%Q /\ _chunksDropped c' = 0%nat
  /\ filter is_stop_request (trace o (_hangup c)) = stop_sent c
  /\ trace o (_hangup c') = [Render; Render]
  /\ (forall ev now, _handleAudioEvent ev now c' = Step c' [] (Done tt))
  /\ (forall ev, _handleStateEvent ev c' = Step c' [] (Done tt))
  /\ (forall ev, _handleBridgeStateEvent ev c' = Step c' [] (Done tt))
  /\ (forall samples, _sendAudio samples c' = Step c' [] (Done tt)).
Proof.
  cbv zeta. unfold final, trace. rewrite !run_hangup_any. cbn [fst snd].
  assert (Hd : _activeDeviceInfo (hung_up c) = None) by now destruct c.
  assert (Hr : released (hung_up c) = []) by now destruct c.
  split; [destruct c; unfold released_all; cbn; tauto|].
  do 6 (split; [now destruct c|]).
  split.
  { cbn [filter is_stop_request]. rewrite !filter_app.
    cbn [filter is_stop_request app]. rewrite app_nil_r.
    assert (H1 : filter is_stop_request (released c) = []).
    { unfold released.
      destruct (_unsubscribeAudio c), (_unsubscribeState c),
        (is_object (_mediaStream c)), (is_object (_workletNode c)),
        (is_object (_source c)), (is_object (_audioContext c)),
        (is_object (_playbackContext c)); reflexivity. }
    rewrite H1, app_nil_r. unfold stop_sent.
    destruct (_activeDeviceInfo c); [destruct (_hass c)|]; reflexivity. }
  split.
  { rewrite Hr. unfold stop_sent. now rewrite Hd. }
  split; [intros; apply handleAudioEvent_discard; tauto|].
  split; [intros; apply handleStateEvent_ignored; tauto|].
  split; [intros; apply handleBridgeStateEvent_ignored; tauto|].
  intros samples. apply sendAudio_idle. tauto.
Qed.

(** X10.  Outside a transition the label of the button says what a press
    does: "Hangup" and [_toggle] hangs up, "Bridge" and [_toggle] starts a
    bridge, "Call" and [_toggle] starts a call. *)
Theorem button_label_matches_toggle (c : card) (ctx_suspended : bool) :
  _starting c = false -> _stopping c = false ->
  (buttonLabel c = "Hangup" /\ _toggle ctx_suspended c = _hangup c)
  \/ (buttonLabel c = "Bridge" /\ _toggle ctx_suspended c = _bridge c)
  \/ (buttonLabel c = "Call" /\ _toggle ctx_suspended c = _call ctx_suspended c).
Proof.
  intros H1 H2. unfold _toggle, buttonLabel. rewrite bind_get, H1, H2.
  cbn [orb]. destruct (_active c || _ringing c); [left; now split|].
  destruct (_isPtmpMode c); [right; left|right; right]; now split.
Qed.

Lemma button_label_matches_toggle_witness :
  _starting streaming_card = false /\ _stopping streaming_card = false
  /\ buttonLabel streaming_card = "Hangup"
  /\ _toggle false streaming_card = _hangup streaming_card.
Proof.
  split; [reflexivity|]. split; [reflexivity|].
  destruct (button_label_matches_toggle streaming_card false eq_refl eq_refl)
    as [H|[[H _]|[H _]]]; [exact H|discriminate H|discriminate H].
Defined.

Lemma run_getDeviceInfo_lookup (o : oracle) (c : card) :
  exists es,
    run o (_getDeviceInfo c) = (c, es, sourceDevice o c)
    /\ Forall (fun e => lookup_only e = true) es.
Proof.
  unfold sourceDevice, _getDeviceInfo. destruct c. cbn.
  destruct _hass0; cbn.
  - destruct (o _ list_devices) as [e|[ds|]]; cbn.
    + eexists. split; [reflexivity|]. repeat constructor.
    + destruct config0; cbn; eexists; (split; [reflexivity|]);
        repeat constructor.
    + eexists. split; [reflexivity|]. repeat constructor.
  - eexists. split; [reflexivity|]. repeat constructor.
Qed.

Lemma lookup_only_no_request (e : effect) :
  lookup_only e = true ->
  is_bridge_request e = false /\ is_start_request e = false
  /\ is_stop_request e = false /\ is_subscribe_request e = false
  /\ is_play e = false.
Proof.
  destruct e as [X r| | | | | | | | | | |]; try discriminate;
    [destruct r; try discriminate|]; intros _; repeat split.
Qed.

(** [_bridge] with an unusable source or destination: the lookup, then
    the error. *)
Lemma run_bridge_refused (o : oracle) (c : card) :
  usable (sourceDevice o c) = false \/ usable (destDevice c) = false ->
  exists es msg,
    run o (_bridge c) = (c, es ++ [ShowError msg], tt)
    /\ Forall (fun e => lookup_only e = true) es.
Proof.
  intro H. unfold _bridge. rewrite run_bind.
  destruct (run_getDeviceInfo_lookup o c) as [es [E Hes]]. rewrite E.
  exists es.
  destruct (sourceDevice o c) as [src|]; cbn [usable] in H.
  - destruct (truthy (host src)) eqn:Hsrc.
    + destruct H as [H|H]; [discriminate|].
      rewrite run_bind. cbn [get run]. fold (destDevice c).
      destruct (destDevice c) as [dst|]; cbn [usable] in H.
      * rewrite H. cbn. eexists. split; [reflexivity|exact Hes].
      * cbn. eexists. split; [reflexivity|exact Hes].
    + cbn. eexists. split; [reflexivity|exact Hes].
  - cbn. eexists. split; [reflexivity|exact Hes].
Qed.

(** X11.  The button is disabled when a press could do nothing useful:
    during a transition, when [_toggle] does nothing at all, and on an idle
    PTMP card with no destination selected, when a press, were it to
    happen, would only look the devices up and show an error.  In both
    cases no start, bridge or stop request is sent and no field changes. *)
Theorem disabled_button_is_harmless (o : oracle) (c : card)
        (ctx_suspended : bool) :
  buttonDisabled c = true -> _ringing c = false ->
  _selectedDestination c = Null \/ _starting c = true \/ _stopping c = true ->
  (forall e, In e (trace o (_toggle ctx_suspended c)) ->
     is_bridge_request e = false /\ is_start_request e = false
     /\ is_stop_request e = false)
  /\ final o (_toggle ctx_suspended c) = c.
Proof.
  intros Hdis Hring Hsel.
  destruct (_starting c || _stopping c) eqn:Ht.
  - assert (E : _toggle ctx_suspended c = Step c [] (Done tt)).
    { unfold _toggle. rewrite bind_get, Ht. reflexivity. }
    unfold trace, final. rewrite E. cbn. split; [intros e []|reflexivity].
  - apply orb_false_iff in Ht. destruct Ht as [Hs1 Hs2].
    destruct Hsel as [Hsel|[Hsel|Hsel]]; try congruence.
    unfold buttonDisabled in Hdis. rewrite Hs1, Hs2, Hsel in Hdis.
    cbn [orb truthy negb andb] in Hdis.
    apply andb_true_iff in Hdis. destruct Hdis as [Hdis Hact].
    apply andb_true_iff in Hdis. destruct Hdis as [Hptmp _].
    apply negb_true_iff in Hact.
    assert (E : _toggle ctx_suspended c = _bridge c).
    { unfold _toggle. rewrite bind_get, Hs1, Hs2, Hact, Hring, Hptmp.
      reflexivity. }
    assert (Hdst : usable (destDevice c) = false).
    { unfold destDevice. rewrite Hsel.
      induction (_availableDevices c) as [|d l IH]; [reflexivity|exact IH]. }
    destruct (run_bridge_refused o c (or_intror Hdst))
      as [es [msg [Hrun Hes]]].
    unfold trace, final. rewrite E, Hrun. cbn [fst snd].
    split; [|reflexivity].
    intros e He. apply in_app_or in He. destruct He as [He|[<-|[]]].
    + rewrite Forall_forall in Hes.
      destruct (lookup_only_no_request e (Hes e He)) as [H1 [H2 [H3 _]]].
      auto.
    + repeat split.
Qed.

Lemma disabled_button_is_harmless_witness :
  buttonDisabled (configured ptmp_config) = true
  /\ final (hub Undefined) (_toggle false (configured ptmp_config))
     = configured ptmp_config.
Proof.
  split; [reflexivity|].
  apply (disabled_button_is_harmless (hub Undefined) (configured ptmp_config)
           false); [reflexivity|reflexivity|left; reflexivity].
Defined.

Lemma call_settles (o : oracle) (c : card) (ctx_suspended : bool) :
  released_all c -> _active c = false -> _ringing c = false ->
  _starting c = false ->
  let c' := final o (_call ctx_suspended c) in
  _starting c' = false /\ _stopping c' = _stopping c
  /\ ((established c' /\ _active c' = negb (_ringing c'))
      \/ (released_all c' /\ _active c' = false /\ _ringing c' = false)).
Proof.
  intros Hrel Ha Hr Hs. cbv zeta. unfold final, _call. rewrite run_bind.
  destruct (run_getDeviceInfo_lookup o c) as [es [E _]]. rewrite E.
  destruct (sourceDevice o c) as [d|];
    [destruct (truthy (host d))|];
    try (cbn; split; [exact Hs|split; [reflexivity|right; auto]]).
  unfold released_all, established in *.
  destruct c; cbn in Hrel, Ha, Hr, Hs.
  destruct Hrel as (? & ? & ? & ? & ? & ? & ? & ?). subst.
  destruct _hass0, ctx_suspended; follow_call o;
    (split; [reflexivity|]); (split; [reflexivity|]);
    first [left; repeat split; reflexivity
          |right; repeat split; reflexivity].
Qed.

(** X12.  Starting from a card that holds nothing, [_call] never ends half
    way, whatever the platform and the hub answer: the card is no longer
    starting, and either the call is set up in full (both subscriptions and
    the whole audio graph held, and exactly one of active and ringing set)
    or nothing is held and the card is neither active nor ringing. *)
Theorem call_sets_up_all_or_nothing (o : oracle) (c : card)
        (ctx_suspended : bool) :
  released_all c -> _active c = false -> _ringing c = false ->
  _starting c = false ->
  let c' := final o (_call ctx_suspended c) in
  _starting c' = false
  /\ ((established c' /\ _active c' = negb (_ringing c'))
      \/ (released_all c' /\ _active c' = false /\ _ringing c' = false)).
Proof.
  intros Hrel Ha Hr Hs.
  destruct (call_settles o c ctx_suspended Hrel Ha Hr Hs) as (H1 & _ & H2).
  split; assumption.
Qed.

Lemma lookup_only_quiet (es : list effect) :
  Forall (fun e => lookup_only e = true) es ->
  Forall (fun e => is_stop_request e = false) es
  /\ Forall (fun e => is_bridge_request e = false) es
  /\ Forall (fun e => is_start_request e = false) es
  /\ Forall (fun e => is_subscribe_request e = false) es.
Proof.
  intro H. repeat split; (eapply Forall_impl; [|exact H]); intros e He;
    apply (lookup_only_no_request e He).
Qed.

Lemma call_sets_up_all_or_nothing_witness :
  released_all (configured p2p_config)
  /\ established (final (hub Undefined) (_call false (configured p2p_config))).
Proof.
  assert (H : released_all (configured p2p_config))
    by (unfold released_all; cbn; tauto).
  split; [exact H|].
  destruct (call_sets_up_all_or_nothing (hub Undefined)
              (configured p2p_config) false H eq_refl eq_refl eq_refl)
    as [_ [[He _]|[Hr _]]]; [exact He|].
  destruct Hr as (Hr & _). discriminate Hr.
Defined.

(** X13.  When the device [_getDeviceInfo] resolves is missing or has no
    host, [_call] shows "Device IP not available" and returns: the
    microphone is not asked for, no start request is sent and no field
    changes. *)
Theorem call_needs_a_host (o : oracle) (c : card) (ctx_suspended : bool) :
  usable (sourceDevice o c) = false ->
  (exists es,
      trace o (_call ctx_suspended c)
      = es ++ [ShowError "Device IP not available"]
      /\ Forall (fun e => lookup_only e = true) es)
  /\ final o (_call ctx_suspended c) = c.
Proof.
  intro H. unfold trace, final, _call. rewrite run_bind.
  destruct (run_getDeviceInfo_lookup o c) as [es [E Hes]]. rewrite E.
  destruct (sourceDevice o c) as [d|]; cbn [usable] in H.
  - rewrite H. cbn. split; [exists es; split; [reflexivity|exact Hes]|reflexivity].
  - cbn. split; [exists es; split; [reflexivity|exact Hes]|reflexivity].
Qed.

Lemma call_needs_a_host_witness :
  usable (sourceDevice (hub Undefined) constructor) = false
  /\ final (hub Undefined) (_call false constructor) = constructor.
Proof.
  split; [reflexivity|].
  apply (call_needs_a_host (hub Undefined) constructor false). reflexivity.
Defined.

(** X14.  Started on a card that holds nothing, and whatever the platform
    answers, [_call] sends no stop and no bridge request; when the
    microphone is refused it sends no start request and subscribes to
    nothing; and when the hub rejects or refuses the start it subscribes to
    nothing. *)
Theorem call_asks_in_order (o : oracle) (c : card) (ctx_suspended : bool) :
  released_all c ->
  let tr := trace o (_call ctx_suspended c) in
  Forall (fun e => is_stop_request e = false) tr
  /\ Forall (fun e => is_bridge_request e = false) tr
  /\ ((exists err, o _ getUserMedia = inl err) ->
      Forall (fun e => is_start_request e = false) tr
      /\ Forall (fun e => is_subscribe_request e = false) tr)
  /\ (forall d,
        sourceDevice o c = Some d ->
        match o _ (start (device_id d) (host d)) with
        | inl _ => True
        | inr result => success result = false
        end ->
        Forall (fun e => is_subscribe_request e = false) tr).
Proof.
  intro Hrel. cbv zeta. unfold trace, _call. rewrite run_bind.
  destruct (run_getDeviceInfo_lookup o c) as [es [E Hes]]. rewrite E.
  clear E.
  destruct (lookup_only_quiet es Hes) as (Q1 & Q2 & Q3 & Q4).
  destruct (sourceDevice o c) as [d|];
    [destruct (truthy (host d))|];
    try (cbn [run _showError emit fst snd];
         repeat split; intros;
         apply Forall_app; split; try assumption; repeat constructor).
  unfold released_all in Hrel. destruct c; cbn in Hrel.
  destruct Hrel as (? & ? & ? & ? & ? & ? & ? & ?). subst.
  destruct _hass0, ctx_suspended; follow_call o;
    (split; [apply Forall_app; split; [exact Q1|quiet_list]|]);
    (split; [apply Forall_app; split; [exact Q2|quiet_list]|]);
    (split;
     [intros [err Herr]; try discriminate Herr;
      split; apply Forall_app; split; try assumption; quiet_list
     |intros d' Hd' Hst; injection Hd' as <-;
      repeat match goal with
             | H : o _ _ = _ |- _ => rewrite H in Hst; clear H
             end;
      try congruence;
      apply Forall_app; split; first [exact Q4|quiet_list]]).
Qed.

Lemma call_asks_in_order_witness :
  released_all (configured p2p_config)
  /\ Forall (fun e => is_start_request e = false)
       (trace (without_microphone (hub Undefined))
          (_call false (configured p2p_config))).
Proof.
  assert (H : released_all (configured p2p_config))
    by (unfold released_all; cbn; tauto).
  split; [exact H|].
  destruct (call_asks_in_order (without_microphone (hub Undefined))
              (configured p2p_config) false H) as (_ & _ & H3 & _).
  apply H3. exists (Error "Permission denied"). reflexivity.
Defined.

Lemma run_getDeviceInfo_found (o : oracle) (c : card) (d : device) :
  _hass c = true -> sourceDevice o c = Some d ->
  run o (_getDeviceInfo c) = (c, [Sent list_devices], Some d).
Proof.
  unfold sourceDevice, _getDeviceInfo. destruct c. cbn. intros ->. cbn.
  destruct (o _ list_devices) as [e|[ds|]]; cbn; try discriminate.
  destruct config0; cbn; try discriminate. now intros ->.
Qed.

(** X15.  When the microphone is granted, the worklet loads and the hub
    accepts the start, [_call] asks, in this order, for the device list,
    the microphone, the worklet module, the start and the two
    subscriptions; it ends with the whole call set up for the resolved
    device, both counters at zero, and ringing or active according to
    whether the hub answered "ringing". *)
Theorem call_success (o : oracle) (c : card) (ctx_suspended : bool)
        (d : device) (stream : obj) (result : call_result) (ha hs : nat) :
  _hass c = true -> sourceDevice o c = Some d -> truthy (host d) = true ->
  o _ getUserMedia = inr stream ->
  (ctx_suspended = true -> o _ resume = inr tt) ->
  o _ addModule = inr tt ->
  o _ (start (device_id d) (host d)) = inr result -> success result = true ->
  o _ (subscribeEvents "intercom_audio") = inr ha ->
  o _ (subscribeEvents "intercom_state") = inr hs ->
  let c' := final o (_call ctx_suspended c) in
  trace o (_call ctx_suspended c)
  = [Sent list_devices; Render; ShowError ""; Sent getUserMedia]
    ++ (if ctx_suspended then [Sent resume] else [])
    ++ [Sent addModule; Sent (start (device_id d) (host d));
        Sent (subscribeEvents "intercom_audio");
        Sent (subscribeEvents "intercom_state"); Render]
  /\ _activeDeviceInfo c' = Some d /\ established c'
  /\ _unsubscribeAudio c' = Some ha /\ _unsubscribeState c' = Some hs
  /\ _starting c' = false
  /\ _chunksSent c' = 0%nat /\ _chunksReceived c' = 0%nat
  /\ _ringing c' = strict_eq (result_state result) (Str "ringing")
  /\ _active c' = negb (strict_eq (result_state result) (Str "ringing")).
Proof.
  intros Hh Hsrc Hhost Hgum Hres Hadd Hstart Hsucc Haud Hst.
  cbv zeta. unfold final, trace, _call. rewrite run_bind.
  rewrite (run_getDeviceInfo_found o c d Hh Hsrc), Hhost.
  unfold established.
  destruct c; cbn in Hh. subst. cbn. rewrite Hgum. cbn.
  destruct ctx_suspended; cbn; [rewrite (Hres eq_refl); cbn|];
    rewrite Hadd; cbn; rewrite Hstart; cbn; rewrite Hsucc; cbn;
    rewrite Haud; cbn; rewrite Hst; cbn;
    destruct (strict_eq (result_state result) (Str "ringing")); cbn;
    repeat split; reflexivity.
Qed.

Lemma call_success_witness :
  trace (hub (Str "ringing")) (_call true (configured p2p_config))
  = [Sent list_devices; Render; ShowError ""; Sent getUserMedia; Sent resume;
     Sent addModule; Sent (start "abc123" (Str "192.168.1.20"));
     Sent (subscribeEvents "intercom_audio");
     Sent (subscribeEvents "intercom_state"); Render]
  /\ _ringing (final (hub (Str "ringing")) (_call true (configured p2p_config)))
     = true.
Proof.
  destruct (call_success (hub (Str "ringing")) (configured p2p_config) true
              kitchen Obj
              {| success := true; result_state := Str "ringing";
                 result_error := Undefined |} 1 1)
    as (H1 & _ & _ & _ & _ & _ & _ & _ & H9 & _);
    try reflexivity.
  split; [exact H1|exact H9].
Defined.

(** X16.  When both devices are usable and the hub accepts, [_bridge] asks
    for the device list, sends one bridge request carrying the ids and
    hosts of the source and of the selected destination, subscribes to the
    bridge state, and leaves the card active for the source device with
    that one subscription. *)
Theorem bridge_success (o : oracle) (c : card) (src dst : device)
        (result : call_result) (h : nat) :
  _hass c = true -> sourceDevice o c = Some src -> truthy (host src) = true ->
  destDevice c = Some dst -> truthy (host dst) = true ->
  o _ (bridge (device_id src) (host src) (device_id dst) (host dst))
  = inr result ->
  success result = true ->
  o _ (subscribeEvents "intercom_bridge_state") = inr h ->
  let c' := final o (_bridge c) in
  trace o (_bridge c)
  = [Sent list_devices; Render; ShowError "";
     Sent (bridge (device_id src) (host src) (device_id dst) (host dst));
     Sent (subscribeEvents "intercom_bridge_state"); Render]
  /\ Str (device_id dst) = _selectedDestination c
  /\ _active c' = true /\ _starting c' = false
  /\ _activeDeviceInfo c' = Some src /\ _unsubscribeState c' = Some h
  /\ _unsubscribeAudio c' = _unsubscribeAudio c
  /\ _mediaStream c' = _mediaStream c.
Proof.
  intros Hh Hsrc Hhs Hdst Hhd Hbr Hsucc Hsub.
  cbv zeta. unfold final, trace, _bridge. rewrite run_bind.
  rewrite (run_getDeviceInfo_found o c src Hh Hsrc), Hhs.
  rewrite run_bind. cbn [get run]. fold (destDevice c). rewrite Hdst, Hhd.
  assert (Hsel : Str (device_id dst) = _selectedDestination c).
  { unfold destDevice in Hdst. apply find_some in Hdst.
    destruct Hdst as [_ Hdst].
    destruct (_selectedDestination c) as [| |t]; try discriminate.
    cbn in Hdst. apply String.eqb_eq in Hdst. now subst. }
  destruct c; cbn in Hh. subst. cbn. rewrite Hbr. cbn. rewrite Hsucc. cbn.
  rewrite Hsub. cbn. repeat split; try reflexivity. exact Hsel.
Qed.

Lemma bridge_success_witness :
  trace (hub Undefined) (_bridge bridge_ready_card)
  = [Sent list_devices; Render; ShowError "";
     Sent (bridge "abc123" (Str "192.168.1.20") "def456" (Str "192.168.1.21"));
     Sent (subscribeEvents "intercom_bridge_state"); Render]
  /\ _active (final (hub Undefined) (_bridge bridge_ready_card)) = true.
Proof.
  destruct (bridge_success (hub Undefined) bridge_ready_card kitchen hallway
              {| success := true; result_state := Undefined;
                 result_error := Undefined |} 1)
    as (H1 & _ & H3 & _); try reflexivity.
  split; [exact H1|exact H3].
Defined.

(** X17.  When the hub rejects or refuses the bridge, [_bridge] shows the
    text of the rejection, or the hub's [error] or else "Bridge failed",
    subscribes to nothing and leaves the card not starting and as active as
    it was; the source device stays recorded as the active device. *)
Theorem bridge_failure (o : oracle) (c : card) (src dst : device)
        (msg : string) :
  _hass c = true -> sourceDevice o c = Some src -> truthy (host src) = true ->
  destDevice c = Some dst -> truthy (host dst) = true ->
  bridge_failure_text
    (o _ (bridge (device_id src) (host src) (device_id dst) (host dst)))
  = Some msg ->
  let c' := final o (_bridge c) in
  trace o (_bridge c)
  = [Sent list_devices; Render; ShowError "";
     Sent (bridge (device_id src) (host src) (device_id dst) (host dst));
     ShowError msg; Render]
  /\ _active c' = _active c /\ _starting c' = false
  /\ _unsubscribeState c' = _unsubscribeState c
  /\ _activeDeviceInfo c' = Some src.
Proof.
  intros Hh Hsrc Hhs Hdst Hhd Hfail.
  cbv zeta. unfold final, trace, _bridge. rewrite run_bind.
  rewrite (run_getDeviceInfo_found o c src Hh Hsrc), Hhs.
  rewrite run_bind. cbn [get run]. fold (destDevice c). rewrite Hdst, Hhd.
  unfold bridge_failure_text in Hfail.
  destruct c; cbn in Hh. subst. cbn.
  destruct (o _ (bridge (device_id src) (host src) (device_id dst) (host dst)))
    as [err|result]; cbn.
  - injection Hfail as <-. repeat split; reflexivity.
  - destruct (success result); [discriminate|]. injection Hfail as <-.
    cbn. unfold error_text, Error, js_or, truthy. cbn.
    destruct (result_error result) as [| |t]; cbn;
      try (repeat split; reflexivity).
    destruct (t =? "")%string eqn:Et; cbn; rewrite ?Et; cbn;
      repeat split; reflexivity.
Qed.

Lemma bridge_failure_witness :
  trace (refusing_bridges (Str "Device busy") (hub Undefined))
        (_bridge bridge_ready_card)
  = [Sent list_devices; Render; ShowError "";
     Sent (bridge "abc123" (Str "192.168.1.20") "def456" (Str "192.168.1.21"));
     ShowError "Device busy"; Render]
  /\ _active (final (refusing_bridges (Str "Device busy") (hub Undefined))
                    (_bridge bridge_ready_card)) = false.
Proof.
  destruct (bridge_failure (refusing_bridges (Str "Device busy") (hub Undefined))
              bridge_ready_card kitchen hallway "Device busy")
    as (H1 & H2 & _); try reflexivity.
  split; [exact H1|exact H2].
Defined.

(* ===================================================================== *)
(** * What holds throughout a session *)
(* ===================================================================== *)

Lemma settled_footprint (c c' : card) :
  footprint c' = footprint c -> settled c -> settled c'.
Proof.
  unfold footprint, settled, released_all. intro E.
  injection E as -> -> -> -> -> -> -> -> -> -> -> ->. tauto.
Qed.

(** The handlers that finish at once and touch neither the flags nor the
    resources. *)
Lemma playScheduled_frame (c : card) (float32 : list Q) (now : Q) :
  exists c' es,
    _playScheduled float32 now c = Step c' es (Done tt)
    /\ footprint c' = footprint c.
Proof.
  unfold _playScheduled. destruct c. split_tests;
    eexists; eexists; split; reflexivity.
Qed.

Lemma handleAudioEvent_frame (c : card) (ev : event audio_data) (now : Q) :
  exists c' es,
    _handleAudioEvent ev now c = Step c' es (Done tt)
    /\ footprint c' = footprint c.
Proof.
  destruct (handleAudioEvent_cases c ev now)
    as [E|[data [d [_ [_ [_ [_ [_ H]]]]]]]].
  - rewrite E. now exists c, [].
  - cbv zeta in H. destruct (decode_audio (audio data)) as [int16|].
    + destruct H as [H1 H2].
      destruct (playScheduled_frame
                  (set_chunksReceived (S (_chunksReceived c)) c)
                  (to_float32 int16) now) as [c' [es [E F]]].
      rewrite E in H1, H2. cbn [now_state now_effects] in H1, H2.
      destruct (_handleAudioEvent ev now c) as [c2 es2 t2] eqn:E2.
      cbn [now_state now_effects] in H1, H2. subst.
      assert (Ht : t2 = Done tt).
      { revert E2. unfold _handleAudioEvent, _playScheduled.
        destruct c. split_tests; intro E2; injection E2 as _ _ <-;
          reflexivity. }
      subst. eexists; eexists; split; [reflexivity|].
      rewrite F. now destruct c.
    + rewrite H. eexists; eexists; split; [reflexivity|now destruct c].
Qed.

Lemma sendAudio_frame (c : card) (samples : list Z) :
  exists c' es,
    _sendAudio samples c = Step c' es (Done tt)
    /\ footprint c' = footprint c.
Proof.
  unfold _sendAudio. destruct c.
  cbn -[Nat.modulo encode_audio].
  destruct _activeDeviceInfo0; [destruct _active0, _hass0|];
    cbn -[Nat.modulo encode_audio];
    try (eexists; eexists; split; reflexivity).
  destruct (Nat.modulo (S _chunksSent0) 25 =? 0)%nat; cbn;
    eexists; eexists; split; reflexivity.
Qed.

Lemma hass_setter_frame (o : oracle) (c : card) :
  footprint (final o (hass_setter c)) = footprint c.
Proof.
  unfold final, hass_setter, _loadAvailableDevices. destruct c. cbn.
  destruct (_isPtmpMode _ && _)%bool; cbn; [|reflexivity].
  destruct (o _ list_devices) as [e|[ds|]]; reflexivity.
Qed.

(** The four things a state event can do, and the three a bridge state
    event can do. *)
Lemma handleStateEvent_dispatch (c : card) (ev : event state_data) :
  _handleStateEvent ev c = Step c [] (Done tt)
  \/ _handleStateEvent ev c
     = Step (set_active true (set_ringing false c)) [Render] (Done tt)
  \/ _handleStateEvent ev c
     = Step (set_active false (set_ringing true c)) [Render] (Done tt)
  \/ _handleStateEvent ev c = _hangup c.
Proof.
  unfold _handleStateEvent. rewrite bind_get.
  destruct ev as [data|]; [|now left].
  destruct (_activeDeviceInfo c) as [d|]; [|now left].
  destruct (negb (state_device_id data =? device_id d)); [now left|].
  destruct (state data =? "streaming");
    [right; left; now destruct c|].
  destruct (state data =? "ringing");
    [right; right; left; now destruct c|].
  destruct (state data =? "disconnected"); [now right; right; right|now left].
Qed.

Lemma handleBridgeStateEvent_dispatch (c : card) (ev : event bridge_data) :
  _handleBridgeStateEvent ev c = Step c [] (Done tt)
  \/ _handleBridgeStateEvent ev c = Step (set_active true c) [Render] (Done tt)
  \/ _handleBridgeStateEvent ev c = _hangup c.
Proof.
  unfold _handleBridgeStateEvent. rewrite bind_get.
  destruct ev as [data|]; [|now left].
  destruct (_activeDeviceInfo c) as [d|]; [|now left].
  destruct (negb (source_device_id data =? device_id d)
            && negb (strict_eq (Str (dest_device_id data))
                               (_selectedDestination c)))%bool;
    [now left|].
  destruct (bridge_state data =? "connected");
    [right; left; now destruct c|].
  destruct (bridge_state data =? "disconnected"); [now right; right|now left].
Qed.

Lemma hangup_settles (o : oracle) (c : card) :
  _starting c = false -> settled (final o (_hangup c)).
Proof.
  intro Hs. unfold final. rewrite run_hangup_any. cbn [fst].
  unfold settled, released_all. destruct c; cbn in Hs |- *. tauto.
Qed.

(** [_bridge] from a card that holds nothing: it ends active, or still
    holding nothing. *)
Lemma bridge_settles (o : oracle) (c : card) :
  released_all c -> _active c = false -> _ringing c = false ->
  _starting c = false ->
  let c' := final o (_bridge c) in
  _starting c' = false /\ _stopping c' = _stopping c
  /\ (_active c' = true
      \/ (released_all c' /\ _active c' = false /\ _ringing c' = false)).
Proof.
  intros Hrel Ha Hr Hs. cbv zeta. unfold final, _bridge. rewrite run_bind.
  destruct (run_getDeviceInfo_lookup o c) as [es [E _]]. rewrite E.
  destruct (sourceDevice o c) as [src|];
    [destruct (truthy (host src))|];
    try (cbn; split; [exact Hs|split; [reflexivity|right; auto]]).
  rewrite run_bind. cbn [get run]. fold (destDevice c).
  destruct (destDevice c) as [dst|];
    [destruct (truthy (host dst))|];
    try (cbn; split; [exact Hs|split; [reflexivity|right; auto]]).
  unfold released_all in *.
  destruct c; cbn in Hrel, Ha, Hr, Hs.
  destruct Hrel as (? & ? & ? & ? & ? & ? & ? & ?). subst.
  destruct _hass0; follow_call o;
    (split; [reflexivity|]); (split; [reflexivity|]);
    first [left; reflexivity|right; repeat split; reflexivity].
Qed.

Lemma toggle_settles (o : oracle) (c : card) (ctx_suspended : bool) :
  settled c -> settled (final o (_toggle ctx_suspended c)).
Proof.
  intros (Hs1 & Hs2 & Hidle). unfold _toggle. rewrite bind_get, Hs1, Hs2.
  cbn [orb].
  destruct (_active c) eqn:Ha; [now apply hangup_settles|].
  destruct (_ringing c) eqn:Hr; [now apply hangup_settles|].
  cbn [orb]. specialize (Hidle eq_refl eq_refl).
  destruct (_isPtmpMode c).
  - destruct (bridge_settles o c Hidle Ha Hr Hs1) as (H1 & H2 & H3).
    unfold settled. rewrite H1, H2.
    split; [reflexivity|]. split; [exact Hs2|].
    intros Ha' Hr'. destruct H3 as [H3|[H3 _]]; [congruence|exact H3].
  - destruct (call_settles o c ctx_suspended Hidle Ha Hr Hs1)
      as (H1 & H2 & H3).
    unfold settled. rewrite H1, H2.
    split; [reflexivity|]. split; [exact Hs2|].
    intros Ha' Hr'. destruct H3 as [[_ H3]|[H3 _]]; [|exact H3].
    rewrite Ha', Hr' in H3. discriminate.
Qed.

Lemma handler_settles (o : oracle) (a : action) (c : card) :
  settled c -> settled (final o (handler a c)).
Proof.
  intro Hc. destruct a as [cfg| |value|susp|ev now|ev|ev|samples];
    cbn [handler].
  - apply (settled_footprint c); [now destruct c|exact Hc].
  - apply (settled_footprint c); [apply hass_setter_frame|exact Hc].
  - apply (settled_footprint c); [now destruct c|exact Hc].
  - now apply toggle_settles.
  - destruct (handleAudioEvent_frame c ev now) as [c' [es [E F]]].
    unfold final. rewrite E. cbn. now apply (settled_footprint c).
  - destruct Hc as (Hs1 & Hs2 & Hidle).
    destruct (handleStateEvent_dispatch c ev) as [E|[E|[E|E]]]; rewrite E.
    + unfold final; cbn. split; [exact Hs1|]. split; [exact Hs2|exact Hidle].
    + unfold final; cbn. unfold settled. destruct c; cbn in *.
      split; [exact Hs1|]. split; [exact Hs2|discriminate].
    + unfold final; cbn. unfold settled. destruct c; cbn in *.
      split; [exact Hs1|]. split; [exact Hs2|intros _; discriminate].
    + now apply hangup_settles.
  - destruct Hc as (Hs1 & Hs2 & Hidle).
    destruct (handleBridgeStateEvent_dispatch c ev) as [E|[E|E]]; rewrite E.
    + unfold final; cbn. split; [exact Hs1|]. split; [exact Hs2|exact Hidle].
    + unfold final; cbn. unfold settled. destruct c; cbn in *.
      split; [exact Hs1|]. split; [exact Hs2|discriminate].
    + now apply hangup_settles.
  - destruct (sendAudio_frame c samples) as [c' [es [E F]]].
    unfold final. rewrite E. cbn. now apply (settled_footprint c).
Qed.

(** X18.  Throughout any session that starts from the constructor, with
    actions and events in any order and whatever the platform answers to
    each, once an action has run to its end no transition is left running,
    and a card that is neither active nor ringing holds no subscription, no
    microphone stream and no audio context: nothing leaks while the card
    shows "Ready". *)
Theorem idle_card_holds_nothing (steps : list (oracle * action)) :
  let c := session steps constructor in
  settled c
  /\ (_active c = false -> _ringing c = false ->
      statusText c = "Ready" /\ released c = []).
Proof.
  assert (H : forall c0, settled c0 -> settled (session steps c0)).
  { induction steps as [|[o a] rest IH]; intros c0 H0; cbn [session].
    - exact H0.
    - apply IH. now apply handler_settles. }
  cbv zeta. specialize (H constructor).
  assert (H0 : settled constructor)
    by (unfold settled, released_all; cbn; tauto).
  specialize (H H0). split; [exact H|].
  intros Ha Hr. destruct H as (Hs1 & Hs2 & Hidle).
  specialize (Hidle Ha Hr). unfold statusText. rewrite Hs1, Hs2, Ha, Hr.
  split; [reflexivity|].
  unfold released_all in Hidle. unfold released.
  destruct Hidle as (-> & -> & -> & -> & -> & -> & -> & _). reflexivity.
Qed.

(* ===================================================================== *)
(** * Devices and destinations *)
(* ===================================================================== *)

Lemma run_loadAvailableDevices (o : oracle) (c : card) :
  _hass c = true ->
  run o (_loadAvailableDevices c)
  = match o _ list_devices with
    | inr (Some devices) =>
        (set_availableDevices (others c devices) c,
         [Sent list_devices; Render], tt)
    | inr None => (c, [Sent list_devices], tt)
    | inl _ =>
        (c, [Sent list_devices;
             ConsoleError "Failed to load available devices:"], tt)
    end.
Proof.
  intro Hh. unfold _loadAvailableDevices, others. destruct c.
  cbn in Hh |- *. subst. cbn.
  destruct (o _ list_devices) as [e|[ds|]]; reflexivity.
Qed.

Lemma run_hass_setter (o : oracle) (c : card) :
  run o (hass_setter c)
  = if needs_devices c then run o (_loadAvailableDevices (set_hass true c))
    else (set_hass true c, [], tt).
Proof.
  unfold hass_setter, needs_devices. rewrite run_bind. cbn [modify run].
  rewrite bind_get.
  replace (_isPtmpMode (set_hass true c)) with (_isPtmpMode c)
    by now destruct c.
  replace (_availableDevices (set_hass true c)) with (_availableDevices c)
    by now destruct c.
  destruct (_isPtmpMode c && _)%bool.
  - now destruct (run o (_loadAvailableDevices (set_hass true c))) as [[? ?] ?].
  - reflexivity.
Qed.

Lemma others_own (c : card) (devices : list device) :
  (forall d, In d devices -> Str (device_id d) = _getConfigDeviceId c) ->
  others c devices = [].
Proof.
  unfold others. induction devices as [|d l IH]; intro Hown; [reflexivity|].
  cbn [filter].
  replace (strict_eq (Str (device_id d)) (_getConfigDeviceId c)) with true
    by (rewrite <- (Hown d (or_introl eq_refl)); cbn; symmetry;
        apply String.eqb_refl).
  cbn [negb]. apply IH. intros d' Hd'. apply Hown. now right.
Qed.

(** X19.  The [hass] setter asks for the device list exactly when the card
    is in PTMP mode and has no destination loaded.  So a PTMP card whose
    hub lists no device other than the card's own asks again on every
    update of [hass]. *)
Theorem hass_setter_loads_when_empty (o : oracle) (c : card) :
  _hass (final o (hass_setter c)) = true
  /\ filter is_list_request (trace o (hass_setter c))
     = (if needs_devices c then [Sent list_devices] else [])
  /\ (needs_devices c = false -> final o (hass_setter c) = set_hass true c)
  /\ (forall devices,
        needs_devices c = true -> o _ list_devices = inr (Some devices) ->
        (forall d, In d devices -> Str (device_id d) = _getConfigDeviceId c) ->
        filter is_list_request
          (trace o (hass_setter (final o (hass_setter c))))
        = [Sent list_devices]).
Proof.
  assert (Hh : _hass (set_hass true c) = true) by now destruct c.
  unfold final, trace. rewrite run_hass_setter.
  destruct (needs_devices c) eqn:En.
  - rewrite (run_loadAvailableDevices o _ Hh).
    destruct (o _ list_devices) as [e|[ds|]] eqn:Eo; cbn [fst snd];
      (split; [now destruct c|]); (split; [reflexivity|]);
      (split; [discriminate|]); intros devices _ Hds Hown;
      try discriminate.
    injection Hds as ->.
    assert (Hown' : forall d, In d devices ->
              Str (device_id d) = _getConfigDeviceId (set_hass true c))
      by (intros d Hd; rewrite (Hown d Hd); now destruct c).
    rewrite (others_own _ devices Hown').
    rewrite run_hass_setter.
    assert (En' : needs_devices (set_availableDevices [] (set_hass true c))
                  = true).
    { unfold needs_devices in En |- *. apply andb_true_iff in En.
      destruct En as [E1 _]. destruct c; cbn in E1 |- *.
      unfold _isPtmpMode, config_field in E1 |- *. cbn in E1 |- *.
      now rewrite E1. }
    rewrite En'.
    rewrite run_loadAvailableDevices by now destruct c.
    rewrite Eo. reflexivity.
  - cbn [fst snd]. split; [exact Hh|]. split; [reflexivity|].
    split; [reflexivity|discriminate].
Qed.

(** X20.  After [_loadAvailableDevices] has received a device list, the
    destinations are the listed devices whose [device_id] is not the
    configured id, in the order of the list; when the request is rejected
    or the answer has no device list, the destinations stay as they
    were. *)
Theorem available_devices_are_the_others (o : oracle) (c : card) :
  _hass c = true ->
  (forall devices,
     o _ list_devices = inr (Some devices) ->
     _availableDevices (final o (_loadAvailableDevices c)) = others c devices
     /\ forall d,
          In d (_availableDevices (final o (_loadAvailableDevices c)))
          <-> In d devices /\ Str (device_id d) <> _getConfigDeviceId c)
  /\ ((forall devices, o _ list_devices <> inr (Some devices)) ->
      final o (_loadAvailableDevices c) = c).
Proof.
  intro Hh. unfold final. rewrite (run_loadAvailableDevices o c Hh). split.
  - intros devices ->. cbn [fst].
    assert (E : _availableDevices (set_availableDevices (others c devices) c)
                = others c devices) by now destruct c.
    rewrite E. split; [reflexivity|].
    intro d. unfold others. rewrite filter_In. split; intros [H1 H2].
    + split; [exact H1|]. intro E'. rewrite <- E' in H2. cbn in H2.
      now rewrite String.eqb_refl in H2.
    + split; [exact H1|].
      destruct (_getConfigDeviceId c) as [| |t]; try reflexivity.
      cbn. apply negb_true_iff, String.eqb_neq. congruence.
  - intro Hno. destruct (o _ list_devices) as [e|[ds|]]; try reflexivity.
    exfalso. now apply (Hno ds).
Qed.

Lemma available_devices_are_the_others_witness :
  _hass (configured ptmp_config) = true
  /\ _availableDevices
       (final (hub Undefined) (_loadAvailableDevices (configured ptmp_config)))
     = [hallway].
Proof.
  split; [reflexivity|].
  destruct (available_devices_are_the_others (hub Undefined)
              (configured ptmp_config) eq_refl) as [H _].
  destruct (H [kitchen; hallway] eq_refl) as [E _].
  rewrite E. reflexivity.
Defined.

Lemma sourceDevice_by_id (o : oracle) (c : card) (devices : list device)
      (cfg : card_config) (d : device) :
  _hass c = true -> config c = Some cfg ->
  o _ list_devices = inr (Some devices) ->
  In d devices ->
  Str (device_id d) = js_or (cfg_entity_id cfg) (cfg_device_id cfg) ->
  sourceDevice o c <> None.
Proof.
  unfold sourceDevice, _getDeviceInfo. destruct c. cbn.
  intros -> -> Ho Hin Hid. cbn. rewrite Ho. cbn.
  intro Hnone.
  apply (find_none _ _ Hnone) in Hin.
  unfold matches_config in Hin. rewrite <- Hid in Hin. cbn in Hin.
  now rewrite String.eqb_refl in Hin.
Qed.





Lemma hass_setter_loads_when_empty_witness :
  needs_devices (final (hub Undefined) (setConfig ptmp_config constructor))
  = true
  /\ filter is_list_request
       (trace (hub Undefined)
          (hass_setter
             (final (hub Undefined) (setConfig ptmp_config constructor))))
     = [Sent list_devices].
Proof.
  split; [reflexivity|].
  destruct (hass_setter_loads_when_empty (hub Undefined)
              (final (hub Undefined) (setConfig ptmp_config constructor)))
    as (_ & H & _).
  exact H.
Defined.

Lemma idle_card_holds_nothing_witness :
  let steps :=
    [(hub (Str "ringing"), do_setConfig p2p_config);
     (hub (Str "ringing"), do_set_hass);
     (hub (Str "ringing"), do_press false);
     (without_microphone (hub Undefined), do_press false);
     (without_microphone (hub Undefined), do_press false)] in
  _active (session steps constructor) = false
  /\ released (session steps constructor) = [].
Proof.
  intro steps. split; [reflexivity|].
  destruct (idle_card_holds_nothing steps) as [_ H].
  apply H; reflexivity.
Defined.

(* ===================================================================== *)
(** * The editor and the card it configures *)
(* ===================================================================== *)

(** X23.  [_valueChanged] dispatches one copy of the configuration in
    which the given key holds the value, or is absent when the value is
    empty, and every other key, [device_id] included, is as before; the
    editor's own fields do not change, and without a configuration nothing
    is dispatched. *)
Theorem valueChanged_changes_one_key (e : Editor.editor) (k : Editor.key)
        (value : string) :
  (Editor._config e = None -> Editor._valueChanged k value e = [])
  /\ (forall cfg,
        Editor._config e = Some cfg ->
        exists cfg',
          Editor._valueChanged k value e = [Editor.ConfigChanged cfg']
          /\ Editor.lookup k cfg'
             = (if (value =? "")%string then Undefined else Str value)
          /\ (forall k', k' <> k ->
                Editor.lookup k' cfg' = Editor.lookup k' cfg)
          /\ cfg_device_id cfg' = cfg_device_id cfg).
Proof.
  unfold Editor._valueChanged. split.
  - intros ->. reflexivity.
  - intros cfg ->. eexists. split; [reflexivity|].
    destruct (value =? "")%string; cbn [negb];
      (split; [now destruct k|]);
      (split; [intros k' Hk; destruct k, k'; try reflexivity; congruence
              |now destruct k]).
Qed.

Lemma valueChanged_changes_one_key_witness :
  exists cfg',
    Editor._valueChanged Editor.entity_id ""
      (fst (Editor.setConfig p2p_config Editor.constructor))
    = [Editor.ConfigChanged cfg']
    /\ Editor.lookup Editor.entity_id cfg' = Undefined.
Proof.
  destruct (proj2 (valueChanged_changes_one_key
                     (fst (Editor.setConfig p2p_config Editor.constructor))
                     Editor.entity_id "") p2p_config eq_refl)
    as [cfg' [E [H _]]].
  exists cfg'. split; [exact E|exact H].
Defined.

(** X24.  The editor keeps the hub's device list as it is, its own device
    included, and loads it once: an update of [hass] asks for the list as
    long as no load has succeeded, a rejected or empty answer changes
    nothing, and after a successful load no update of [hass] asks again. *)
Theorem editor_loads_devices_once (e : Editor.editor)
        (answer again : outcome (option (list device))) :
  let e' := fst (Editor.hass_setter answer e) in
  let asked := snd (Editor.hass_setter answer e) in
  (Editor._devicesLoaded e = true ->
   asked = [] /\ Editor._devices e' = Editor._devices e)
  /\ (Editor._devicesLoaded e = false ->
      In Editor.ListDevices asked
      /\ match answer with
         | inr (Some devices) =>
             Editor._devices e' = devices
             /\ Editor._devicesLoaded e' = true
             /\ snd (Editor.hass_setter again e') = []
         | _ =>
             Editor._devices e' = Editor._devices e
             /\ Editor._devicesLoaded e' = false
             /\ In Editor.ListDevices (snd (Editor.hass_setter again e'))
         end)
  /\ Editor._config e' = Editor._config e.
Proof.
  cbv zeta. unfold Editor.hass_setter, Editor._loadDevices,
    Editor._loadDevices_asks, Editor._loadDevices_settles.
  destruct e as [cfg h ds loaded]; cbn.
  destruct loaded; cbn.
  - repeat split; discriminate.
  - split; [discriminate|]. split.
    + intros _. destruct answer as [err|[devices|]]; cbn;
        (split; [now left|]); repeat split;
        destruct again as [err'|[devices'|]]; cbn; auto.
    + now destruct answer as [err|[devices|]].
Qed.

Lemma editor_loads_devices_once_witness :
  Editor._devicesLoaded Editor.constructor = false
  /\ Editor._devices
       (fst (Editor.hass_setter (inr (Some [kitchen; hallway]))
               Editor.constructor))
     = [kitchen; hallway].
Proof.
  split; [reflexivity|].
  destruct (editor_loads_devices_once Editor.constructor
              (inr (Some [kitchen; hallway])) (inr None)) as (_ & H & _).
  destruct (H eq_refl) as (_ & H1 & _). exact H1.
Defined.



(* ===================================================================== *)
(** * More on the send loop and on drops *)
(* ===================================================================== *)

(** X26.  The loop of [_sendAudio] that converts the bytes 0x8000 at a
    time loses, repeats and reorders nothing, whatever the length of the
    buffer: the binary string has one character per byte and its char
    codes are the bytes. *)
Theorem binary_string_keeps_every_byte (bytes : list Z) :
  Forall byte_range bytes ->
  String.length (binary_string bytes) = List.length bytes
  /\ charCodes (binary_string bytes) = bytes.
Proof.
  intro H. rewrite binary_string_spec. split.
  - rewrite <- (charCodes_fromCharCode bytes H) at 2.
    unfold charCodes. rewrite length_map.
    generalize (string_of_list_ascii (fromCharCode bytes)).
    induction s as [|ch s IH]; cbn; [reflexivity|now rewrite IH].
  - now apply charCodes_fromCharCode.
Qed.

Lemma binary_string_keeps_every_byte_witness :
  Forall byte_range [1; 0; 255; 255]
  /\ charCodes (binary_string [1; 0; 255; 255]) = [1; 0; 255; 255].
Proof.
  assert (H : Forall byte_range [1; 0; 255; 255])
    by (repeat constructor; unfold byte_range; lia).
  split; [exact H|].
  apply (binary_string_keeps_every_byte [1; 0; 255; 255] H).
Defined.



Lemma handleAudioEvent_received (c : card) (d : device)
      (ev : event audio_data) (now : Q) :
  _activeDeviceInfo c = Some d -> _active c = true ->
  is_object (_playbackContext c) = true ->
  let c' := now_state (_handleAudioEvent ev now c) in
  _activeDeviceInfo c' = Some d /\ _active c' = true
  /\ is_object (_playbackContext c') = true
  /\ _chunksReceived c'
     = (_chunksReceived c + (if addressed_to d (ev, now) then 1 else 0))%nat.
Proof.
  intros Hd Ha Hctx. cbv zeta. unfold _handleAudioEvent, _playScheduled,
    addressed_to.
  destruct c; cbn -[Nat.modulo decode_audio] in Hd, Ha, Hctx |- *. subst.
  destruct ev as [data|]; cbn -[Nat.modulo decode_audio];
    [|repeat split; try assumption; lia].
  destruct (audio_device_id data =? device_id d);
    cbn -[Nat.modulo decode_audio];
    [|repeat split; try assumption; lia].
  rewrite Hctx. split_tests; repeat split; try assumption; try reflexivity;
    lia.
Qed.

(** X28.  During a call the received counter counts exactly the audio
    events that name the active device, whether or not their payload can
    be decoded or the chunk is dropped; events for other devices and events
    without data are not counted. *)
Theorem received_counter_counts_own_events
        (d : device) (events : list (event audio_data * Q)) (c : card) :
  _activeDeviceInfo c = Some d -> _active c = true ->
  is_object (_playbackContext c) = true ->
  _chunksReceived (deliver events c)
  = (_chunksReceived c + List.length (filter (addressed_to d) events))%nat
  /\ _active (deliver events c) = true
  /\ _activeDeviceInfo (deliver events c) = Some d.
Proof.
  revert c. induction events as [|[ev now] rest IH]; intros c Hd Ha Hctx;
    cbn [deliver filter].
  - repeat split; try assumption. cbn. lia.
  - destruct (handleAudioEvent_received c d ev now Hd Ha Hctx)
      as (H1 & H2 & H3 & H4).
    destruct (IH _ H1 H2 H3) as (I1 & I2 & I3).
    rewrite I1, H4. repeat split; try assumption.
    destruct (addressed_to d (ev, now)); cbn [List.length]; lia.
Qed.

Lemma received_counter_counts_own_events_witness :
  _activeDeviceInfo streaming_card = Some kitchen
  /\ _chunksReceived
       (deliver
          [(Some {| audio_device_id := "abc123"; audio := "AQD//wAB" |}, 1%Q);
           (Some {| audio_device_id := "def456"; audio := "AQD//wAB" |}, 1%Q);
           (Some {| audio_device_id := "abc123"; audio := "A" |}, 1%Q)]
          streaming_card) = 2%nat.
Proof.
  split; [reflexivity|].
  destruct (received_counter_counts_own_events kitchen
              [(Some {| audio_device_id := "abc123"; audio := "AQD//wAB" |}, 1%Q);
               (Some {| audio_device_id := "def456"; audio := "AQD//wAB" |}, 1%Q);
               (Some {| audio_device_id := "abc123"; audio := "A" |}, 1%Q)]
              streaming_card eq_refl eq_refl eq_refl) as [H _].
  rewrite H. reflexivity.
Defined.
